(** * check_events.py: the event identity and deduplication pipeline

    A shallow embedding of [src/check_events.py] and of the library
    functions it calls ([str] methods, [urllib.parse],
    [xml.sax.saxutils.escape]), followed by the properties of the
    pipeline: identity normalisation, extraction fallbacks, the seen-set
    store, deduplication, and the RSS feed publisher.

    Conventions.  A Python [str] is a [string]; a character is an [ascii],
    read as a code point below 256.  A call that may raise returns an
    [option] or an [exc]; [sys.exit(n)] is an explicit exit status.  The
    files, the fetched page and the clock are fields of an explicit
    [World] that is threaded through the run. *)

From Stdlib Require Import Ascii String List Arith Bool Lia.
From Stdlib Require Import Decimal DecimalString.
From stdpp Require Import base option list sets gmap strings sorting.

Local Open Scope char_scope.
Local Open Scope string_scope.
Local Open Scope list_scope.

(* ===================================================================== *)
(** * Python [str] operations *)
(* ===================================================================== *)

Module PyStr.

(** The double quote character *)
Definition dquote : string := String "034" "".

(** [bool(s)]: a string is true when it is not empty. *)
Definition truthy (s : string) : bool :=
  match s with
  | EmptyString => false
  | String _ _ => true
  end.

(** [s[:n]] *)
Fixpoint take (n : nat) (s : string) : string :=
  match n, s with
  | S k, String c r => String c (take k r)
  | _, _ => ""
  end.

(** [s[n:]] *)
Fixpoint drop (n : nat) (s : string) : string :=
  match n, s with
  | S k, String _ r => drop k r
  | _, _ => s
  end.

(** [s[a:b]] for [0 <= a] and [0 <= b] *)
Definition slice (a b : nat) (s : string) : string := take (b - a) (drop a s).

(** [s.find(c)] for a one-character [c]; [None] stands for [-1]. *)
Fixpoint find_char (c : ascii) (s : string) : option nat :=
  match s with
  | EmptyString => None
  | String d r => if Ascii.eqb d c then Some 0 else S <$> find_char c r
  end.

(** [s.find(c, start)] *)
Definition find_char_from (c : ascii) (start : nat) (s : string) : option nat :=
  (fun i => start + i) <$> find_char c (drop start s).

(** [s.rfind(c)] *)
Fixpoint rfind_char (c : ascii) (s : string) : option nat :=
  match s with
  | EmptyString => None
  | String d r =>
      match rfind_char c r with
      | Some i => Some (S i)
      | None => if Ascii.eqb d c then Some 0 else None
      end
  end.

(** [c in s] for a one-character [c] *)
Definition in_char (c : ascii) (s : string) : bool :=
  match find_char c s with
  | Some _ => true
  | None => false
  end.

(** [s.split(c)] for a one-character separator: never empty. *)
Fixpoint split_char (c : ascii) (s : string) : list string :=
  match s with
  | EmptyString => [""]
  | String d r =>
      if Ascii.eqb d c then "" :: split_char c r
      else match split_char c r with
           | h :: t => String d h :: t
           | [] => [String d ""]
           end
  end.

(** [s.split(c, 1)] where the caller has two targets: the part before the
    first [c] and the part after it.  Callers test [c in s] first. *)
Definition split_once (c : ascii) (s : string) : string * string :=
  match find_char c s with
  | Some i => (take i s, drop (S i) s)
  | None => (s, "")
  end.

(** [s.partition(c)]: (before, separator found, after) *)
Definition partition (c : ascii) (s : string) : string * bool * string :=
  match find_char c s with
  | Some i => (take i s, true, drop (S i) s)
  | None => (s, false, "")
  end.

(** [s.rpartition(c)[2]]: what follows the last [c], or all of [s]. *)
Definition rpartition_tail (c : ascii) (s : string) : string :=
  match rfind_char c s with
  | Some i => drop (S i) s
  | None => s
  end.

(** [sep.join(l)] *)
Fixpoint join (sep : string) (l : list string) : string :=
  match l with
  | [] => ""
  | [x] => x
  | x :: r => x +:+ sep +:+ join sep r
  end.

(** [''.join(l)] *)
Definition concat (l : list string) : string := fold_right String.append "" l.

(** [s.replace(c, "")] *)
Fixpoint remove_char (c : ascii) (s : string) : string :=
  match s with
  | EmptyString => ""
  | String d r => if Ascii.eqb d c then remove_char c r else String d (remove_char c r)
  end.

(** [s.replace(c, r)] for a one-character [c] *)
Fixpoint replace_char (c : ascii) (r : string) (s : string) : string :=
  match s with
  | EmptyString => ""
  | String d t =>
      if Ascii.eqb d c then r +:+ replace_char c r t
      else String d (replace_char c r t)
  end.

Definition is_upper (c : ascii) : bool :=
  (65 <=? nat_of_ascii c)%nat && (nat_of_ascii c <=? 90)%nat.

Definition is_lower (c : ascii) : bool :=
  (97 <=? nat_of_ascii c)%nat && (nat_of_ascii c <=? 122)%nat.

Definition is_digit (c : ascii) : bool :=
  (48 <=? nat_of_ascii c)%nat && (nat_of_ascii c <=? 57)%nat.

(** [c.isascii() and c.isalpha()] *)
Definition is_ascii_alpha (c : ascii) : bool := is_upper c || is_lower c.

Definition lower_char (c : ascii) : ascii :=
  if is_upper c then ascii_of_nat (nat_of_ascii c + 32) else c.

(** [s.lower()], on the ASCII letters (the only use is on scheme names). *)
Fixpoint lower (s : string) : string :=
  match s with
  | EmptyString => ""
  | String c r => String (lower_char c) (lower r)
  end.

(** Membership in the C0 control characters and space, [chr(0)..chr(0x20)]. *)
Definition is_c0_or_space (c : ascii) : bool := (nat_of_ascii c <=? 32)%nat.

(** [s.lstrip(_WHATWG_C0_CONTROL_OR_SPACE)] *)
Fixpoint lstrip_c0 (s : string) : string :=
  match s with
  | EmptyString => ""
  | String c r => if is_c0_or_space c then lstrip_c0 r else s
  end.

(** [s.rstrip(_WHATWG_C0_CONTROL_OR_SPACE)] *)
Fixpoint rstrip_c0 (s : string) : string :=
  match s with
  | EmptyString => ""
  | String c r =>
      match rstrip_c0 r with
      | EmptyString => if is_c0_or_space c then "" else String c ""
      | String _ _ as r' => String c r'
      end
  end.

(** [s.strip(_WHATWG_C0_CONTROL_OR_SPACE)] *)
Definition strip_c0 (s : string) : string := rstrip_c0 (lstrip_c0 s).

(** [all(p(c) for c in s)] *)
Fixpoint all_chars (p : ascii -> bool) (s : string) : bool :=
  match s with
  | EmptyString => true
  | String c r => p c && all_chars p r
  end.

(** [x in l] for a list of strings *)
Definition in_list (x : string) (l : list string) : bool :=
  existsb (String.eqb x) l.

(** [s.find(sub)]: the least index at which [sub] occurs. *)
Fixpoint find (sub s : string) : option nat :=
  if String.prefix sub s then Some 0
  else match s with
       | EmptyString => None
       | String _ r => S <$> find sub r
       end.

(** [sub in s] *)
Definition contains (sub s : string) : bool :=
  match find sub s with
  | Some _ => true
  | None => false
  end.

(** The scan of [s.split(sep)]: [skip] characters of a separator that has
    just been matched are still to be passed over. *)
Fixpoint split_go (sep : string) (skip : nat) (s : string) : list string :=
  match s with
  | EmptyString => [""]
  | String c r =>
      match skip with
      | S k => split_go sep k r
      | O =>
          if String.prefix sep s
          then "" :: split_go sep (String.length sep - 1) r
          else match split_go sep 0 r with
               | h :: t => String c h :: t
               | [] => [String c ""]
               end
      end
  end.

(** [s.split(sep)]; an empty separator raises [ValueError]. *)
Definition split (sep s : string) : option (list string) :=
  match sep with
  | EmptyString => None
  | String _ _ => Some (split_go sep 0 s)
  end.

(** What a file opened for reading in text mode with the default
    [newline=None] returns for the stored text: a carriage return followed
    by a line feed, and a carriage return alone, each become one line feed.
    The flag tells that the previous character was a carriage return. *)
Fixpoint newlines_go (after_cr : bool) (s : string) : string :=
  match s with
  | "" => ""
  | String c rest =>
      if Ascii.eqb c "013" then String "010" (newlines_go true rest)
      else if Ascii.eqb c "010" && after_cr then newlines_go false rest
      else String c (newlines_go false rest)
  end.

Definition universal_newlines (s : string) : string := newlines_go false s.

End PyStr.

(* ===================================================================== *)
(** * [urllib.parse]: [urlsplit], [urlparse], [urlunparse], [urljoin] *)
(* ===================================================================== *)

(** The standard library functions that [normalize_url] calls, after
    CPython 3.11.  [None] stands for a raised [ValueError]. *)

Module UrlParse.
Import PyStr.

Definition uses_relative : list string :=
  [""; "ftp"; "http"; "gopher"; "nntp"; "imap"; "wais"; "file"; "https";
   "shttp"; "mms"; "prospero"; "rtsp"; "rtspu"; "sftp"; "svn"; "svn+ssh";
   "ws"; "wss"].

Definition uses_netloc : list string :=
  [""; "ftp"; "http"; "gopher"; "nntp"; "telnet"; "imap"; "wais"; "file";
   "mms"; "https"; "shttp"; "snews"; "prospero"; "rtsp"; "rtspu"; "rsync";
   "svn"; "svn+ssh"; "sftp"; "nfs"; "git"; "git+ssh"; "ws"; "wss"].

Definition uses_params : list string :=
  [""; "ftp"; "hdl"; "prospero"; "http"; "imap"; "https"; "shttp"; "rtsp";
   "rtspu"; "sip"; "sips"; "mms"; "sftp"; "tel"].

(** [c in scheme_chars] *)
Definition is_scheme_char (c : ascii) : bool :=
  is_lower c || is_upper c || is_digit c
  || Ascii.eqb c "+" || Ascii.eqb c "-" || Ascii.eqb c ".".

(** The three [replace(b, "")] of [_UNSAFE_URL_BYTES_TO_REMOVE]: tab,
    carriage return, line feed. *)
Definition remove_unsafe (s : string) : string :=
  remove_char "010" (remove_char "013" (remove_char "009" s)).

(** [ParseResult] *)
Record ParseResult : Type := mkParseResult {
  scheme : string;
  netloc : string;
  path : string;
  params : string;
  query : string;
  fragment : string
}.

(** [SplitResult] *)
Record SplitResult : Type := mkSplitResult {
  s_scheme : string;
  s_netloc : string;
  s_path : string;
  s_query : string;
  s_fragment : string
}.

(** [_splitparams] *)
Definition splitparams (url : string) : string * string :=
  let cut (i : nat) := (take i url, drop (S i) url) in
  if in_char "/" url then
    match find_char_from ";" (default 0 (rfind_char "/" url)) url with
    | Some i => cut i
    | None => (url, "")
    end
  else
    match find_char ";" url with
    | Some i => cut i
    | None => (take (String.length url - 1) url, url)
    end.

(** [_splitnetloc] *)
Definition splitnetloc (url : string) (start : nat) : string * string :=
  let step (delim : nat) (c : ascii) :=
    match find_char_from c start url with
    | Some wdelim => Nat.min delim wdelim
    | None => delim
    end in
  let delim := fold_left step ["/"; "?"; "#"]%char (String.length url) in
  (slice start delim url, drop delim url).

Section Parse.

(** [_check_bracketed_host] validates the text between [[] and []] with a
    regular expression and the [ipaddress] module; it is taken as given:
    [bracketed_host_ok h] holds when the call returns without raising. *)
Variable bracketed_host_ok : string -> bool.

(** [_check_bracketed_netloc]: [true] when it returns without raising. *)
Definition check_bracketed_netloc (netloc : string) : bool :=
  let hostname_and_port := rpartition_tail "@" netloc in
  let '(before_bracket, have_open_br, bracketed) := partition "[" hostname_and_port in
  if have_open_br then
    if truthy before_bracket then false
    else
      let '(hostname, _, port) := partition "]" bracketed in
      if truthy port && negb (String.prefix ":" port) then false
      else bracketed_host_ok hostname
  else
    let '(hostname, _, _) := partition ":" hostname_and_port in
    bracketed_host_ok hostname.

(** [_checknetloc] returns at once on an empty or ASCII netloc.  On other
    text it raises when NFKC normalisation produces one of [/?#@:]; no
    code point below 256 normalises to one of these, so on the strings of
    this model the check always passes. *)
Definition checknetloc (netloc : string) : bool := true.

(** [urlsplit(url, scheme)], with [allow_fragments] at its default. *)
Definition urlsplit (url scheme : string) : option SplitResult :=
  let url := lstrip_c0 url in
  let scheme := strip_c0 scheme in
  let url := remove_unsafe url in
  let scheme := remove_unsafe scheme in
  let '(scheme, url) :=
    match find_char ":" url, url with
    | Some (S i), String c0 _ =>
        if is_ascii_alpha c0 && all_chars is_scheme_char (take (S i) url)
        then (lower (take (S i) url), drop (S (S i)) url)
        else (scheme, url)
    | _, _ => (scheme, url)
    end in
  let split_rest (netloc url : string) :=
    let '(url, fragment) :=
      if in_char "#" url then split_once "#" url else (url, "") in
    let '(url, query) :=
      if in_char "?" url then split_once "?" url else (url, "") in
    if checknetloc netloc
    then Some (mkSplitResult scheme netloc url query fragment)
    else None in
  if String.prefix "//" url then
    let '(netloc, url) := splitnetloc url 2 in
    if (in_char "[" netloc && negb (in_char "]" netloc))
       || (in_char "]" netloc && negb (in_char "[" netloc))
    then None
    else if in_char "[" netloc && in_char "]" netloc
            && negb (check_bracketed_netloc netloc)
    then None
    else split_rest netloc url
  else split_rest "" url.

(** [urlparse(url, scheme)] *)
Definition urlparse (url scheme : string) : option ParseResult :=
  match urlsplit url scheme with
  | None => None
  | Some r =>
      let '(url, params) :=
        if in_list (s_scheme r) uses_params && in_char ";" (s_path r)
        then splitparams (s_path r)
        else (s_path r, "") in
      Some (mkParseResult (s_scheme r) (s_netloc r) url params
                          (s_query r) (s_fragment r))
  end.

(** [urlunsplit] *)
Definition urlunsplit (scheme netloc url query fragment : string) : string :=
  let url :=
    if truthy netloc
       || (truthy scheme && in_list scheme uses_netloc
           && negb (String.eqb (take 2 url) "//"))
    then
      let url :=
        if truthy url && negb (String.eqb (take 1 url) "/")
        then "/" +:+ url else url in
      "//" +:+ netloc +:+ url
    else url in
  let url := if truthy scheme then scheme +:+ ":" +:+ url else url in
  let url := if truthy query then url +:+ "?" +:+ query else url in
  let url := if truthy fragment then url +:+ "#" +:+ fragment else url in
  url.

(** [urlunparse] *)
Definition urlunparse (scheme netloc url params query fragment : string) : string :=
  let url := if truthy params then url +:+ ";" +:+ params else url in
  urlunsplit scheme netloc url query fragment.

(** [segments[1:-1] = filter(None, segments[1:-1])] *)
Definition filter_inner (segments : list string) : list string :=
  match segments with
  | x :: (_ :: _) as r => x :: List.filter truthy (removelast r) ++ [List.last r ""]
  | _ => segments
  end.

(** The loop of [urljoin] over the path segments; [resolved_path.pop()] on
    an empty list raises [IndexError], which the loop ignores. *)
Definition resolve_segment (resolved_path : list string) (seg : string) : list string :=
  if String.eqb seg ".." then removelast resolved_path
  else if String.eqb seg "." then resolved_path
  else resolved_path ++ [seg].

(** [urljoin(base, url)] *)
Definition urljoin (base url : string) : option string :=
  if negb (truthy base) then Some url
  else if negb (truthy url) then Some base
  else
    match urlparse base "" with
    | None => None
    | Some b =>
    match urlparse url (scheme b) with
    | None => None
    | Some u =>
      if negb (String.eqb (scheme u) (scheme b))
         || negb (in_list (scheme u) uses_relative)
      then Some url
      else if in_list (scheme u) uses_netloc && truthy (netloc u)
      then Some (urlunparse (scheme u) (netloc u) (path u)
                            (params u) (query u) (fragment u))
      else
        let netloc' :=
          if in_list (scheme u) uses_netloc then netloc b else netloc u in
        if negb (truthy (path u)) && negb (truthy (params u))
        then
          let query' := if negb (truthy (query u)) then query b else query u in
          Some (urlunparse (scheme u) netloc' (path b) (params b)
                           query' (fragment u))
        else
          let base_parts := split_char "/" (path b) in
          let base_parts :=
            if negb (String.eqb (List.last base_parts "") "")
            then removelast base_parts else base_parts in
          let segments :=
            if String.eqb (take 1 (path u)) "/"
            then split_char "/" (path u)
            else filter_inner (base_parts ++ split_char "/" (path u)) in
          let resolved_path := fold_left resolve_segment segments [] in
          let resolved_path :=
            if in_list (List.last segments "") ["."; ".."]
            then resolved_path ++ [""] else resolved_path in
          let joined := join "/" resolved_path in
          Some (urlunparse (scheme u) netloc'
                           (if truthy joined then joined else "/")
                           (params u) (query u) (fragment u))
    end
    end.

End Parse.

End UrlParse.

(* ===================================================================== *)
(** * [xml.sax.saxutils.escape] *)
(* ===================================================================== *)

Module Sax.
Import PyStr.

(** [escape(data)]: the ampersand first, then [>], then [<]. *)
Definition escape (data : string) : string :=
  let data := replace_char "&" "&amp;" data in
  let data := replace_char ">" "&gt;" data in
  let data := replace_char "<" "&lt;" data in
  data.

End Sax.

(* ===================================================================== *)
(** * [datetime.utcnow().strftime] *)
(* ===================================================================== *)

Module Clock.

(** The fields of a [datetime] that the two formats read; [weekday] is
    [datetime.weekday()], Monday being 0. *)
Record DateTime : Type := mkDateTime {
  year : nat;
  month : nat;
  day : nat;
  hour : nat;
  minute : nat;
  second : nat;
  microsecond : nat;
  weekday : nat
}.

Definition day_abbr : list string :=
  ["Mon"; "Tue"; "Wed"; "Thu"; "Fri"; "Sat"; "Sun"].

Definition month_abbr : list string :=
  ["Jan"; "Feb"; "Mar"; "Apr"; "May"; "Jun";
   "Jul"; "Aug"; "Sep"; "Oct"; "Nov"; "Dec"].

(** Decimal digits of a number *)
Definition decimal (n : nat) : string := NilZero.string_of_uint (Nat.to_uint n).

(** [%d], [%H], [%M], [%S]: two digits, zero padded *)
Definition pad2 (n : nat) : string :=
  if (n <? 10)%nat then "0" +:+ decimal n else decimal n.

(** [strftime('%a, %d %b %Y %H:%M:%S +0000')] in the C locale *)
Definition rfc822 (t : DateTime) : string :=
  nth (weekday t) day_abbr "" +:+ ", " +:+ pad2 (day t) +:+ " "
  +:+ nth (month t - 1) month_abbr "" +:+ " " +:+ decimal (year t) +:+ " "
  +:+ pad2 (hour t) +:+ ":" +:+ pad2 (minute t) +:+ ":" +:+ pad2 (second t)
  +:+ " +0000".

(** [%04d] and [%06d]: zero padded to a width *)
Fixpoint zeros (n : nat) : string :=
  match n with
  | 0 => ""
  | S n => String "0" (zeros n)
  end.

Definition pad (width n : nat) : string :=
  zeros (width - String.length (decimal n)) +:+ decimal n.

(** [datetime.isoformat()]: [YYYY-MM-DDTHH:MM:SS], followed by [.ffffff]
    when the microsecond is not zero. *)
Definition isoformat (t : DateTime) : string :=
  pad 4 (year t) +:+ "-" +:+ pad 2 (month t) +:+ "-" +:+ pad 2 (day t) +:+ "T"
  +:+ pad 2 (hour t) +:+ ":" +:+ pad 2 (minute t) +:+ ":" +:+ pad 2 (second t)
  +:+ (if (microsecond t =? 0)%nat then "" else "." +:+ pad 6 (microsecond t)).

(** [datetime.isoformat() + 'Z'] *)
Definition isoformat_z (t : DateTime) : string := isoformat t +:+ "Z".

End Clock.

(* ===================================================================== *)
(** * The document tree seen through BeautifulSoup *)
(* ===================================================================== *)

Module Soup.

(** An element matched by a title or date selector: what
    [get('datetime')] and [get_text(strip=True)] return on it. *)
Record Tag : Type := mkTag {
  attr_datetime : option string;
  text : string
}.

(** The result of [ancestor.select_one(selector)]: [None], an element, or
    an exception (a selector that does not parse, a broken node). *)
Inductive Select : Type :=
  | NoMatch
  | Match (t : Tag)
  | SelectError.

(** One element of [link_element.parents], seen through the two queries
    made on it. *)
Record Ancestor : Type := mkAncestor {
  select_title : Select;
  select_date : Select
}.

(** An element matched by [REG_LINK_SELECTOR]: its [href] attribute if it
    has one, its stripped text, and its ancestors from the nearest on. *)
Record LinkElement : Type := mkLinkElement {
  href : option string;
  link_text : string;
  parents : list Ancestor
}.

End Soup.

(* ===================================================================== *)
(** * check_events.py *)
(* ===================================================================== *)

Module Scraper.
Import PyStr.
Export Soup.

(** The dict returned by [extract_event_data] *)
Record Event : Type := mkEvent {
  ev_id : string;
  ev_link : string;
  ev_title : string;
  ev_date : string
}.

#[global] Instance Event_eq_dec : EqDecision Event.
Proof. solve_decision. Defined.

(** A computation inside a [try] block: a value or a raised [Exception]. *)
Inductive exc (A : Type) : Type :=
  | Ok (a : A)
  | Raise.
Arguments Ok {A} a.
Arguments Raise {A}.

Definition exc_bind {A B : Type} (m : exc A) (k : A -> exc B) : exc B :=
  match m with
  | Ok a => k a
  | Raise => Raise
  end.

Notation "'try!' x ':=' m 'in' k" := (exc_bind m (fun x => k))
  (at level 10, x name, m at level 100, k at level 200).

(** A file as the program sees it: missing, present but failing to read
    or to decode, or present with its content. *)
Inductive File (A : Type) : Type :=
  | Absent
  | Unreadable
  | Content (a : A).
Arguments Absent {A}.
Arguments Unreadable {A}.
Arguments Content {A} a.

(** Where [with open(path, 'w') as f: ...] fails when it does: in [open],
    before the file is touched, or later, after [open] has truncated the
    file. Then [written] characters of the text, not all of it, have
    reached the file, followed, when [torn], by the first byte of a
    character that takes two in UTF-8. *)
Inductive Failure : Type :=
  | AtOpen
  | WhileWriting (written : nat) (torn : bool).

(** What a run reads and writes.
    - [page]: the elements [soup.select(REG_LINK_SELECTOR)] finds on the
      fetched page, [None] when the request fails;
    - [state_file]: [STATE_FILE], its content being the JSON array it holds;
    - [feed_file]: [FEED_FILE], a different path, its content being the
      text as it was written ([os.linesep] is a line feed, so writing in
      text mode changes nothing; reading does, see [read_existing_items]);
    - [state_writable], [feed_writable]: whether opening the file for
      writing and writing to it succeeds;
    - [state_failure], [feed_failure]: where the write fails when it does;
    - [clock], [ticks]: the successive values of [datetime.utcnow()];
    - [posted]: the payloads handed to [requests.post]. *)
Record World : Type := mkWorld {
  page : option (list LinkElement);
  state_file : File (list string);
  feed_file : File string;
  state_writable : bool;
  feed_writable : bool;
  state_failure : Failure;
  feed_failure : Failure;
  clock : nat -> Clock.DateTime;
  ticks : nat;
  posted : list (string * string * string * string)
}.

Definition set_state_file (f : File (list string)) (w : World) : World :=
  mkWorld (page w) f (feed_file w) (state_writable w) (feed_writable w)
          (state_failure w) (feed_failure w) (clock w) (ticks w) (posted w).

Definition set_feed_file (f : File string) (w : World) : World :=
  mkWorld (page w) (state_file w) f (state_writable w) (feed_writable w)
          (state_failure w) (feed_failure w) (clock w) (ticks w) (posted w).

Definition tick (w : World) : World :=
  mkWorld (page w) (state_file w) (feed_file w) (state_writable w)
          (feed_writable w) (state_failure w) (feed_failure w)
          (clock w) (S (ticks w)) (posted w).

Definition add_posted (p : string * string * string * string) (w : World) : World :=
  mkWorld (page w) (state_file w) (feed_file w) (state_writable w)
          (feed_writable w) (state_failure w) (feed_failure w)
          (clock w) (ticks w) (posted w ++ [p]).

(** The result of a step of the run: it returns, or the process exits
    through [sys.exit(status)]. *)
Inductive outcome (A : Type) : Type :=
  | Done (a : A)
  | Exit (status : nat).
Arguments Done {A} a.
Arguments Exit {A} status.

(** A step of the run: a function of the world. *)
Definition run (A : Type) : Type := World -> World * outcome A.

Definition ret {A : Type} (a : A) : run A := fun w => (w, Done a).

Definition bind {A B : Type} (m : run A) (k : A -> run B) : run B :=
  fun w =>
    match m w with
    | (w', Done a) => k a w'
    | (w', Exit n) => (w', Exit n)
    end.

Notation "'do!' x ':=' m 'in' k" := (bind m (fun x => k))
  (at level 10, x name, m at level 100, k at level 200).

(** [datetime.utcnow()] *)
Definition utcnow : run Clock.DateTime :=
  fun w => (tick w, Done (clock w (ticks w))).

(** The exit status of the process when [main] is the whole program. *)
Definition exit_status (o : outcome unit) : nat :=
  match o with
  | Done _ => 0
  | Exit n => n
  end.

Section Config.

(** [_check_bracketed_host] of [urllib.parse], see [UrlParse]. *)
Variable bracketed_host_ok : string -> bool.

(** Configuration read from the environment when the module is loaded. *)
Variable TARGET_URL : string.
Variable WEBHOOK_URL : string.

(** [normalize_url]: the value or, when [urljoin] or [urlparse] raises
    [ValueError], [None]. *)
Definition normalize_url (url base_url : string) : option (string * string) :=
  match UrlParse.urljoin bracketed_host_ok base_url url with
  | None => None
  | Some absolute_url =>
      match UrlParse.urlparse bracketed_host_ok absolute_url "" with
      | None => None
      | Some parsed =>
          let normalized :=
            UrlParse.urlunparse (UrlParse.scheme parsed) (UrlParse.netloc parsed)
                                (UrlParse.path parsed) "" "" "" in
          Some (normalized, absolute_url)
      end
  end.

(** [for ancestor in link_element.parents: elem = ancestor.select_one(..);
    if elem: ...; break]: a Tag is always true, so the loop stops at the
    first ancestor with a match. *)
Fixpoint first_match (select : Ancestor -> Select) (ancestors : list Ancestor)
  : exc (option Tag) :=
  match ancestors with
  | [] => Ok None
  | ancestor :: rest =>
      match select ancestor with
      | SelectError => Raise
      | Match elem => Ok (Some elem)
      | NoMatch => first_match select rest
      end
  end.

(** [a or b] on strings *)
Definition str_or (a b : string) : string := if truthy a then a else b.

(** The body of the [try] block of [extract_event_data]. *)
Definition extract_body (link_element : LinkElement) (base_url : string)
  : exc (option Event) :=
  let link_href := default "" (href link_element) in
  if negb (truthy link_href) then Ok None
  else
    try! normalized :=
      match normalize_url link_href base_url with
      | Some r => Ok r
      | None => Raise
      end in
    let '(stable_id, full_link) := normalized in
    try! title_elem := first_match select_title (parents link_element) in
    let title :=
      match title_elem with
      | Some e => text e
      | None => ""
      end in
    let title :=
      if negb (truthy title)
      then str_or (link_text link_element) "Untitled Event"
      else title in
    try! date_elem := first_match select_date (parents link_element) in
    let date :=
      match date_elem with
      | Some e => str_or (default "" (attr_datetime e)) (text e)
      | None => ""
      end in
    let date := if negb (truthy date) then "Date TBD" else date in
    Ok (Some (mkEvent stable_id full_link title date)).

(** [extract_event_data]: [except Exception] turns a failure into [None]. *)
Definition extract_event_data (link_element : LinkElement) (base_url : string)
  : option Event :=
  match extract_body link_element base_url with
  | Ok r => r
  | Raise => None
  end.

(** [load_seen_events] *)
Definition load_seen_events (w : World) : gset string :=
  match state_file w with
  | Content ids => list_to_set ids
  | Unreadable => ∅
  | Absent => ∅
  end.

(** [sorted(list(seen_ids))] *)
Definition sorted (seen_ids : gset string) : list string :=
  merge_sort String.le (elements seen_ids).

(** [save_seen_events]: a write that fails after [open] leaves an empty
    or cut off text in [STATE_FILE], which [json.load] does not decode. *)
Definition save_seen_events (seen_ids : gset string) : run unit :=
  fun w =>
    if state_writable w
    then (set_state_file (Content (sorted seen_ids)) w, Done tt)
    else
      match state_failure w with
      | AtOpen => (w, Exit 1)
      | WhileWriting _ _ => (set_state_file Unreadable w, Exit 1)
      end.

(** [post_to_webhook]: every failure of the request is caught. *)
Definition post_to_webhook (event : Event) : run unit :=
  if negb (truthy WEBHOOK_URL) then ret tt
  else
    do! now := utcnow in
    fun w =>
      (add_posted (ev_title event, ev_link event, ev_date event,
                   Clock.isoformat_z now) w, Done tt).

(** [generate_rss_item] *)
Definition generate_rss_item (event : Event) : run string :=
  let title := Sax.escape (ev_title event) in
  let link := Sax.escape (ev_link event) in
  let date_str := Sax.escape (ev_date event) in
  do! now := utcnow in
  let pub_date := Clock.rfc822 now in
  let description := Sax.escape ("Registration Date: " +:+ date_str) in
  ret ("  <item>
    <title>" +:+ title +:+ "</title>
    <link>" +:+ link +:+ "</link>
    <description>" +:+ description +:+ "</description>
    <pubDate>" +:+ pub_date +:+ "</pubDate>
    <guid isPermaLink=" +:+ dquote +:+ "true" +:+ dquote +:+ ">" +:+ link +:+ "</guid>
  </item>").

(** The items read back from an existing feed: the loop over
    [content.split('</item>')[:-1]], where [content] is what [f.read()]
    returns for a file opened in text mode. *)
Definition existing_item (part : string) : list string :=
  if contains "<item>" part then
    let item_start :=
      match find "<item>" part with
      | Some i => i
      | None => String.length part - 1
      end in
    [drop item_start part +:+ "</item>"]
  else [].

Definition read_existing_items (w : World) : list string :=
  match feed_file w with
  | Content stored =>
      let content := universal_newlines stored in
      match split "</item>" content with
      | Some parts => flat_map existing_item (removelast parts)
      | None => []
      end
  | Unreadable => []
  | Absent => []
  end.

(** [[generate_rss_item(event) for event in events]] *)
Fixpoint generate_rss_items (events : list Event) : run (list string) :=
  match events with
  | [] => ret []
  | event :: rest =>
      do! item := generate_rss_item event in
      do! items := generate_rss_items rest in
      ret (item :: items)
  end.

(** The text of the feed around its items. *)
Definition feed_head (build_date : string) : string :=
  "<?xml version=" +:+ dquote +:+ "1.0" +:+ dquote
  +:+ " encoding=" +:+ dquote +:+ "UTF-8" +:+ dquote +:+ "?>
<rss version=" +:+ dquote +:+ "2.0" +:+ dquote +:+ ">
  <channel>
    <title>" +:+ Sax.escape "EUGLOH Course Events" +:+ "</title>
    <link>" +:+ Sax.escape TARGET_URL +:+ "</link>
    <description>"
  +:+ Sax.escape "New course registration opportunities from EUGLOH"
  +:+ "</description>
    <lastBuildDate>" +:+ build_date +:+ "</lastBuildDate>
".

Definition feed_tail : string := "
  </channel>
</rss>
".

(** [update_rss_feed]: a write that fails after [open] leaves the part of
    the text that reached [FEED_FILE], which does not decode when it ends
    inside a character. *)
Definition update_rss_feed (new_events : list Event) : run unit :=
  match new_events with
  | [] => ret tt
  | _ :: _ =>
      fun w =>
        let existing_items := read_existing_items w in
        (do! new_items := generate_rss_items (rev new_events) in
         let all_items := new_items ++ existing_items in
         do! now := utcnow in
         let build_date := Clock.rfc822 now in
         let feed_content :=
           feed_head build_date +:+ concat all_items +:+ feed_tail in
         fun w' =>
           if feed_writable w'
           then (set_feed_file (Content feed_content) w', Done tt)
           else
             match feed_failure w' with
             | AtOpen => (w', Exit 1)
             | WhileWriting written torn =>
                 let left :=
                   if torn then Unreadable
                   else Content (take written feed_content) in
                 (set_feed_file left w', Exit 1)
             end) w
  end.

(** [[e for e in events if e['id'] not in seen_ids]] *)
Definition new_only (seen_ids : gset string) (events : list Event) : list Event :=
  filter (fun e => ev_id e ∉ seen_ids) events.

(** The loop of [scrape_events] over the link elements: [None] results
    are skipped (a dict with keys is always true). *)
Fixpoint extract_all (link_elements : list LinkElement) : list Event :=
  match link_elements with
  | [] => []
  | link_elem :: rest =>
      match extract_event_data link_elem TARGET_URL with
      | Some event => event :: extract_all rest
      | None => extract_all rest
      end
  end.

(** [scrape_events] *)
Definition scrape_events : run (list Event * gset string) :=
  fun w =>
    match page w with
    | None => (w, Exit 1)
    | Some link_elements =>
        let events := extract_all link_elements in
        let seen_ids := load_seen_events w in
        let new_events := new_only seen_ids events in
        (w, Done (new_events, seen_ids))
    end.

(** The loop of [main] over the new events: the webhook, then
    [seen_ids.add(event['id'])]. *)
Fixpoint process_new (new_events : list Event) (seen_ids : gset string)
  : run (gset string) :=
  match new_events with
  | [] => ret seen_ids
  | event :: rest =>
      do! _ := post_to_webhook event in
      process_new rest (seen_ids ∪ {[ev_id event]})
  end.

(** [main] *)
Definition main : run unit :=
  do! scraped := scrape_events in
  let '(new_events, seen_ids) := scraped in
  match new_events with
  | _ :: _ =>
      do! seen_ids := process_new new_events seen_ids in
      do! _ := update_rss_feed new_events in
      save_seen_events seen_ids
  | [] => save_seen_events seen_ids
  end.

End Config.

End Scraper.

(* ===================================================================== *)
(** * Example inputs *)
(* ===================================================================== *)

Module Examples.
Import Scraper.

(** A host check for the examples; none of them has a bracketed host that
    reaches it. *)
Definition any_bracketed_host (hostname : string) : bool := true.

(** The default of [TARGET_URL] *)
Definition default_target : string :=
  "https://www.eugloh.eu/courses-trainings/?openRegistrations=%5Byes%5D".

(** The default of [WEBHOOK_URL]: not set *)
Definition no_webhook : string := "".

(** A link with a title and a [<time datetime=...>] in its container. *)
Definition link_full : LinkElement :=
  mkLinkElement (Some "/reg?sid=123#top") "Register"
    [mkAncestor NoMatch NoMatch;
     mkAncestor (Match (mkTag None "Intro Bio"))
                (Match (mkTag (Some "2025-05-01") "May 1"))].

(** A link with nothing around it. *)
Definition link_bare : LinkElement :=
  mkLinkElement (Some "/courses/42?ref=home") "Sign up"
    [mkAncestor NoMatch NoMatch].

(** A link without text, two levels deep, with nothing around it. *)
Definition link_untitled : LinkElement :=
  mkLinkElement (Some "summer-school") ""
    [mkAncestor NoMatch NoMatch; mkAncestor NoMatch NoMatch].

(** A link whose date stands nearer to it than its title: the inner
    container has a date without [datetime], the outer one a title and
    another date. *)
Definition link_split : LinkElement :=
  mkLinkElement (Some "/courses/7") "Join"
    [mkAncestor NoMatch (Match (mkTag None "June 3"));
     mkAncestor (Match (mkTag None "Field Course"))
                (Match (mkTag (Some "2025-09-09") "Sept 9"))].

(** A link whose reference opens a bracketed host and never closes it. *)
Definition link_bad_host : LinkElement :=
  mkLinkElement (Some "//[") "Register" [mkAncestor NoMatch NoMatch].

(** A link whose container makes the title query fail. *)
Definition link_query_error : LinkElement :=
  mkLinkElement (Some "/reg/9") "Register" [mkAncestor SelectError NoMatch].

(** A link without [href]. *)
Definition link_no_href : LinkElement :=
  mkLinkElement None "Register" [].

Definition noon : Clock.DateTime := Clock.mkDateTime 2025 5 1 12 0 0 0 3.

(** A moment with a fraction of a second *)
Definition half_past : Clock.DateTime :=
  Clock.mkDateTime 2025 5 1 12 30 7 4512 3.

(** A first run: nothing stored yet, both files writable. *)
Definition fresh_world : World :=
  mkWorld (Some [link_full; link_query_error; link_bare]) Absent Absent
          true true AtOpen AtOpen (fun _ => noon) 0 [].

(** The same page when everything on it has been seen. *)
Definition seen_world : World :=
  mkWorld (Some [link_full; link_query_error; link_bare])
          (Content ["https://www.eugloh.eu/courses/42";
                    "https://www.eugloh.eu/reg";
                    "https://www.eugloh.eu/old"])
          (Content "<rss></rss>") true true AtOpen AtOpen (fun _ => noon) 0 [].

(** The store cannot be written. *)
Definition readonly_store_world : World :=
  mkWorld (Some [link_full]) Absent Absent false true AtOpen AtOpen
          (fun _ => noon) 0 [].

(** The feed cannot be written. *)
Definition readonly_feed_world : World :=
  mkWorld (Some [link_full]) Absent Absent true false AtOpen AtOpen
          (fun _ => noon) 0 [].

(** A page with a new event and an old store; the feed can be written,
    the write of the store fails after [open] has emptied the file. *)
Definition full_disk_world : World :=
  mkWorld (Some [link_full]) (Content ["https://www.eugloh.eu/old"]) Absent
          false true (WhileWriting 0 false) AtOpen (fun _ => noon) 0 [].

(** A first run whose first reading of the clock has a fraction of a
    second. *)
Definition afternoon_world : World :=
  mkWorld (Some [link_full; link_query_error; link_bare]) Absent Absent
          true true AtOpen AtOpen
          (fun n => match n with 0 => half_past | _ => noon end) 0 [].

(** Events as the extraction returns them; the second has characters that
    [escape] rewrites. *)
Definition event_bio : Event :=
  mkEvent "https://x.org/reg" "https://x.org/reg?sid=123#top"
          "Intro Bio" "2025-05-01".

Definition event_lab : Event :=
  mkEvent "https://x.org/lab" "https://x.org/lab?a=1&b=2"
          "Chem <lab> & more" "R&D week".

Definition event_late : Event :=
  mkEvent "https://x.org/late" "https://x.org/late" "Untitled Event" "Date TBD".

(** The page cannot be fetched. *)
Definition offline_world : World :=
  mkWorld None (Content ["https://www.eugloh.eu/reg"]) Absent true true
          AtOpen AtOpen (fun _ => noon) 0 [].

(** A webhook address *)
Definition some_webhook : string := "https://hooks.example.org/events".

End Examples.

(* ===================================================================== *)
(** * Properties of the run: store, deduplication, exit status *)
(* ===================================================================== *)

Module RunProps.
Import PyStr Scraper.

Section WithConfig.

Variable bracketed_host_ok : string -> bool.
Variable TARGET_URL : string.
Variable WEBHOOK_URL : string.

Abbreviation extract_all := (Scraper.extract_all bracketed_host_ok TARGET_URL).
Abbreviation scrape_events := (Scraper.scrape_events bracketed_host_ok TARGET_URL).
Abbreviation process_new := (Scraper.process_new WEBHOOK_URL).
Abbreviation update_rss_feed := (Scraper.update_rss_feed TARGET_URL).
Abbreviation main := (Scraper.main bracketed_host_ok TARGET_URL WEBHOOK_URL).

(** The identities of a list of events, as a set. *)
Definition ids_of (events : list Event) : gset string :=
  list_to_set (ev_id <$> events).

(** Two worlds that differ at most in the clock reading and the webhook
    log. *)
Definition same_files (w w' : World) : Prop :=
  page w' = page w /\ state_file w' = state_file w
  /\ feed_file w' = feed_file w /\ state_writable w' = state_writable w
  /\ feed_writable w' = feed_writable w /\ clock w' = clock w
  /\ state_failure w' = state_failure w /\ feed_failure w' = feed_failure w.

Lemma same_files_refl w : same_files w w.
Proof. by repeat split. Qed.

Lemma same_files_trans w1 w2 w3 :
  same_files w1 w2 -> same_files w2 w3 -> same_files w1 w3.
Proof.
  unfold same_files. intros (?&?&?&?&?&?&?&?) (?&?&?&?&?&?&?&?).
  repeat split; congruence.
Qed.

Lemma same_files_tick w : same_files w (tick w).
Proof. by repeat split. Qed.

Lemma same_files_posted p w : same_files w (add_posted p w).
Proof. by repeat split. Qed.

Lemma post_to_webhook_frame event w :
  exists w', post_to_webhook WEBHOOK_URL event w = (w', Done tt) /\ same_files w w'.
Proof.
  unfold post_to_webhook. destruct (negb (truthy WEBHOOK_URL)).
  - exists w. split; [done | apply same_files_refl].
  - eexists. split; [reflexivity |].
    eapply same_files_trans; [apply same_files_tick | apply same_files_posted].
Qed.

(** The loop over the new events adds their identities and touches no
    file. *)
Lemma process_new_spec new_events seen_ids w :
  exists w', process_new new_events seen_ids w = (w', Done (seen_ids ∪ ids_of new_events))
             /\ same_files w w'.
Proof.
  revert seen_ids w.
  induction new_events as [|event rest IH]; intros seen_ids w; simpl.
  - exists w. split; [|apply same_files_refl].
    unfold ret, ids_of. simpl. f_equal. f_equal. set_solver.
  - destruct (post_to_webhook_frame event w) as (w1 & Hpost & Hw1).
    destruct (IH (seen_ids ∪ {[ev_id event]}) w1) as (w2 & Hrest & Hw2).
    exists w2. split; [|by eapply same_files_trans].
    unfold bind. rewrite Hpost, Hrest. f_equal. f_equal.
    unfold ids_of. simpl. set_solver.
Qed.

Lemma generate_rss_item_frame event w :
  exists item, generate_rss_item event w = (tick w, Done item).
Proof. unfold generate_rss_item, bind, utcnow, ret. eexists. reflexivity. Qed.

Lemma generate_rss_items_frame events w :
  exists w' items, generate_rss_items events w = (w', Done items) /\ same_files w w'.
Proof.
  revert w. induction events as [|event rest IH]; intros w; simpl.
  - exists w, []. split; [done | apply same_files_refl].
  - destruct (IH (tick w)) as (w' & items & Hrest & Hw').
    unfold bind at 1. simpl. unfold bind at 1. rewrite Hrest.
    eexists _, _. split; [reflexivity |].
    eapply same_files_trans; [apply same_files_tick | done].
Qed.

(** The publisher leaves the store alone, and when it returns with some new
    events the feed file has content. *)
Lemma update_rss_feed_spec new_events w :
  exists w' o, update_rss_feed new_events w = (w', o)
    /\ page w' = page w /\ state_file w' = state_file w
    /\ state_writable w' = state_writable w
    /\ (new_events = [] -> w' = w /\ o = Done tt)
    /\ (new_events <> [] -> o = if feed_writable w then Done tt else Exit 1).
Proof.
  destruct new_events as [|e rest].
  - exists w, (Done tt). by repeat split.
  - unfold Scraper.update_rss_feed.
    destruct (generate_rss_items_frame (rev (e :: rest)) w)
      as (w1 & items & Hgen & (Hp & Hs & Hf & Hsw & Hfw & Hc & _)).
    unfold bind at 1. rewrite Hgen. unfold bind, utcnow. simpl.
    rewrite Hfw. destruct (feed_writable w) eqn:Hw.
    + eexists _, _. split; [reflexivity |]. simpl. by repeat split.
    + destruct (feed_failure w1) as [|written torn].
      * eexists _, _. split; [reflexivity |]. simpl. by repeat split.
      * eexists _, _. split; [reflexivity |]. simpl. by repeat split.
Qed.

(** The publisher does not change how a later write of the store fails. *)
Lemma update_rss_feed_failure new_events w :
  state_failure (fst (update_rss_feed new_events w)) = state_failure w.
Proof.
  destruct new_events as [|e rest]; [done|].
  unfold Scraper.update_rss_feed.
  destruct (generate_rss_items_frame (rev (e :: rest)) w)
    as (w1 & items & Hgen & (_ & _ & _ & _ & _ & _ & Hsf & _)).
  unfold bind at 1. rewrite Hgen. unfold bind, utcnow. simpl.
  destruct (feed_writable w1); [done|].
  by destruct (feed_failure w1).
Qed.

(** Reading back what [save_seen_events] wrote gives the set that was
    saved. *)
Lemma load_saved seen_ids : list_to_set (sorted seen_ids) = seen_ids.
Proof.
  apply set_eq. intros x. unfold sorted.
  rewrite elem_of_list_to_set, merge_sort_Permutation. apply elem_of_elements.
Qed.

Lemma sorted_is_sorted seen_ids : Sorted String.le (sorted seen_ids).
Proof. apply Sorted_merge_sort. apply _. Qed.

Lemma new_only_all_seen seen_ids events :
  (forall e, e ∈ events -> ev_id e ∈ seen_ids) -> new_only seen_ids events = [].
Proof.
  unfold new_only. induction events as [|e rest IH]; intros Hall; [done|].
  rewrite filter_cons_False.
  - apply IH. intros x Hx. apply Hall. by right.
  - intros Hn. apply Hn, Hall. by left.
Qed.

Lemma new_only_after_add seen_ids events :
  new_only (seen_ids ∪ ids_of (new_only seen_ids events)) events = [].
Proof.
  apply new_only_all_seen. intros e He.
  destruct (decide (ev_id e ∈ seen_ids)); [set_solver|].
  apply elem_of_union_r. unfold ids_of. apply elem_of_list_to_set.
  apply list_elem_of_fmap. exists e. split; [done|].
  by apply list_elem_of_filter.
Qed.

(** What a run that does not exit has done. *)
Lemma main_done w w' :
  main w = (w', Done tt) ->
  exists link_elements,
    page w = Some link_elements /\ page w' = Some link_elements
    /\ state_writable w = true
    /\ let seen_ids := load_seen_events w in
       let new_events := new_only seen_ids (extract_all link_elements) in
       state_file w' = Content (sorted (seen_ids ∪ ids_of new_events))
       /\ (new_events = [] -> feed_file w' = feed_file w)
       /\ (new_events <> [] -> feed_writable w = true).
Proof.
  unfold Scraper.main, bind at 1, Scraper.scrape_events.
  destruct (page w) as [link_elements|] eqn:Hpage; simpl; [|done].
  intros Hmain. exists link_elements. split; [done|]. revert Hmain.
  destruct (new_only _ _) as [|e rest] eqn:Hnew.
  - unfold save_seen_events.
    destruct (state_writable w) eqn:Hsw; [|by destruct (state_failure w)].
    intros [= <-]. simpl. repeat split; try done.
    f_equal. f_equal. unfold ids_of. simpl. set_solver.
  - destruct (process_new_spec (e :: rest) (load_seen_events w) w)
      as (w1 & Hproc & (Hp1 & Hs1 & Hf1 & Hsw1 & Hfw1 & Hc1 & _)).
    destruct (update_rss_feed_spec (e :: rest) w1)
      as (w2 & o & Hupd & Hp2 & Hs2 & Hsw2 & _ & Ho).
    unfold bind at 1. rewrite Hproc. unfold bind at 1. rewrite Hupd.
    specialize (Ho ltac:(done)). rewrite Hfw1 in Ho.
    destruct (feed_writable w) eqn:Hfw; subst o; [|done].
    unfold save_seen_events. rewrite Hsw2, Hsw1.
    destruct (state_writable w) eqn:Hsw; [|by destruct (state_failure w2)].
    intros [= <-]. simpl. repeat split; try done.
    congruence.
Qed.

Lemma load_after_save seen_ids w :
  load_seen_events (set_state_file (Content (sorted seen_ids)) w) = seen_ids.
Proof. unfold load_seen_events. simpl. apply load_saved. Qed.

(** [main] on a world whose page has nothing new: only the store is
    written. *)
Lemma main_nothing_new w link_elements :
  page w = Some link_elements ->
  new_only (load_seen_events w) (extract_all link_elements) = [] ->
  main w = save_seen_events (load_seen_events w) w.
Proof.
  intros Hpage Hnew. unfold Scraper.main, bind, Scraper.scrape_events.
  by rewrite Hpage, Hnew.
Qed.

(** [main] on a world whose page has new events. *)
Lemma main_some_new w link_elements :
  page w = Some link_elements ->
  new_only (load_seen_events w) (extract_all link_elements) <> [] ->
  exists w1,
    same_files w w1
    /\ main w =
       if feed_writable w
       then
         let w2 := fst (update_rss_feed
                          (new_only (load_seen_events w) (extract_all link_elements)) w1) in
         save_seen_events
           (load_seen_events w
            ∪ ids_of (new_only (load_seen_events w) (extract_all link_elements))) w2
       else (fst (update_rss_feed
                    (new_only (load_seen_events w) (extract_all link_elements)) w1),
             Exit 1).
Proof.
  intros Hpage Hnew. unfold Scraper.main, bind at 1, Scraper.scrape_events.
  rewrite Hpage.
  destruct (new_only _ _) as [|e rest] eqn:Hn; [done|].
  destruct (process_new_spec (e :: rest) (load_seen_events w) w)
    as (w1 & Hproc & Hsame).
  exists w1. split; [done|].
  destruct (update_rss_feed_spec (e :: rest) w1)
    as (w2 & o & Hupd & _ & _ & _ & _ & Ho).
  specialize (Ho ltac:(done)).
  destruct Hsame as (_ & _ & _ & _ & Hfw & _ & _). rewrite Hfw in Ho.
  unfold bind at 1. rewrite Hproc. unfold bind at 1. rewrite Hupd. simpl.
  subst o. by destruct (feed_writable w).
Qed.

(** C2. The dedup step keeps exactly the events whose identity is not in
    the seen-set, each occurrence in its place in page order, and
    [scrape_events] hands back the seen-set as it was loaded, in an
    unchanged world. *)
Theorem dedup_keeps_unseen_in_page_order
    (seen_ids : gset string) (events : list Event)
    (w : World) (link_elements : list LinkElement) :
  page w = Some link_elements ->
  (forall e, e ∈ new_only seen_ids events <-> e ∈ events /\ ev_id e ∉ seen_ids)
  /\ new_only seen_ids events `sublist_of` events
  /\ (forall before e after,
        events = before ++ e :: after ->
        new_only seen_ids events =
          new_only seen_ids before
          ++ (if decide (ev_id e ∈ seen_ids) then [] else [e])
          ++ new_only seen_ids after)
  /\ scrape_events w =
       (w, Done (new_only (load_seen_events w) (extract_all link_elements),
                 load_seen_events w)).
Proof.
  intros Hpage. split; [|split; [|split]].
  - intros e. unfold new_only. rewrite list_elem_of_filter. tauto.
  - apply sublist_filter.
  - intros before e after ->. unfold new_only.
    rewrite filter_app, filter_cons.
    destruct (decide (ev_id e ∈ seen_ids)), (decide (ev_id e ∉ seen_ids)); done.
  - unfold Scraper.scrape_events. by rewrite Hpage.
Qed.

(** C3. After a run that completed, a run on the same page with the store
    that the first run left finds no new event, and leaves the feed as it
    is. *)
Theorem second_run_finds_nothing_new (w w1 w2 : World) :
  main w = (w1, Done tt) ->
  page w2 = page w ->
  state_file w2 = state_file w1 ->
  (exists seen_ids, scrape_events w2 = (w2, Done ([], seen_ids)))
  /\ feed_file (fst (main w2)) = feed_file w2.
Proof.
  intros Hmain Hpage Hstate.
  destruct (main_done _ _ Hmain) as (ls & Hp & _ & _ & Hsf & _ & _).
  simpl in Hsf.
  assert (Hnew : new_only (load_seen_events w2) (extract_all ls) = []).
  { unfold load_seen_events. rewrite Hstate, Hsf, load_saved.
    apply new_only_after_add. }
  assert (Hp2 : page w2 = Some ls) by congruence.
  split.
  - exists (load_seen_events w2). unfold Scraper.scrape_events.
    by rewrite Hp2, Hnew.
  - rewrite (main_nothing_new _ _ Hp2 Hnew). unfold save_seen_events.
    by destruct (state_writable w2), (state_failure w2).
Qed.

(** C4. The seen-set stored by a run that completed contains the seen-set
    that the run loaded: it is that set with the identities of the new
    events added. *)
Theorem seen_set_only_grows (w w' : World) :
  main w = (w', Done tt) ->
  exists link_elements persisted,
    page w = Some link_elements
    /\ state_file w' = Content persisted
    /\ load_seen_events w' =
         load_seen_events w
         ∪ ids_of (new_only (load_seen_events w) (extract_all link_elements))
    /\ load_seen_events w ⊆ load_seen_events w'.
Proof.
  intros Hmain.
  destruct (main_done _ _ Hmain) as (ls & Hp & _ & _ & Hsf & _ & _).
  simpl in Hsf. exists ls. eexists. split; [done|]. split; [exact Hsf|].
  assert (Hload : load_seen_events w' =
                  load_seen_events w
                  ∪ ids_of (new_only (load_seen_events w) (extract_all ls))).
  { unfold load_seen_events at 1. rewrite Hsf. apply load_saved. }
  split; [done|]. rewrite Hload. set_solver.
Qed.

(** C8. On a fetched page, the run exits with status 1 when the store
    cannot be written and when there are new events and the feed cannot
    be written; it exits with status 0 when every write that it makes
    succeeds, also when there is nothing new. *)
Theorem exit_status_follows_the_writes (w : World) (link_elements : list LinkElement) :
  page w = Some link_elements ->
  let new_events := new_only (load_seen_events w) (extract_all link_elements) in
  let status := exit_status (snd (main w)) in
  (state_writable w = false -> status = 1)
  /\ (new_events <> [] -> feed_writable w = false -> status = 1)
  /\ (state_writable w = true ->
      new_events = [] \/ feed_writable w = true ->
      status = 0).
Proof.
  intros Hpage new_events status. subst status.
  destruct (decide (new_events = [])) as [Hnil|Hne].
  - rewrite (main_nothing_new _ _ Hpage Hnil). unfold save_seen_events.
    repeat split; intros; destruct (state_writable w), (state_failure w);
      try done.
  - destruct (main_some_new _ _ Hpage Hne) as (w1 & Hsame & ->).
    fold new_events.
    destruct (update_rss_feed_spec new_events w1)
      as (w2 & o & Hupd & _ & _ & Hsw & _ & _).
    destruct Hsame as (_ & _ & _ & Hsw1 & _ & _ & _).
    rewrite Hupd. simpl. unfold save_seen_events. rewrite Hsw, Hsw1.
    repeat split; intros;
      destruct (feed_writable w), (state_writable w), (state_failure w2);
      try done; by intuition.
Qed.

(** C9. With no new event the publisher returns at once; the run leaves
    the feed file as it is, absent or not, and still writes the store:
    when that write succeeds the run changes nothing but the store file,
    and the set that the next run loads from it is the set that this run
    loaded.  After every run that completed the store file is there, and
    it holds every identity that the run loaded. *)
Theorem nothing_new_touches_only_the_store (w : World) (link_elements : list LinkElement) :
  page w = Some link_elements ->
  new_only (load_seen_events w) (extract_all link_elements) = [] ->
  update_rss_feed [] w = (w, Done tt)
  /\ feed_file (fst (main w)) = feed_file w
  /\ (state_writable w = true ->
      main w = (set_state_file (Content (sorted (load_seen_events w))) w, Done tt)
      /\ load_seen_events (fst (main w)) = load_seen_events w)
  /\ (forall w0 w0', main w0 = (w0', Done tt) ->
        exists ids, state_file w0' = Content ids
                    /\ load_seen_events w0 ⊆ list_to_set ids).
Proof.
  intros Hpage Hnew. split; [done|].
  rewrite (main_nothing_new _ _ Hpage Hnew). unfold save_seen_events.
  split; [by destruct (state_writable w), (state_failure w)|]. split.
  - intros ->. split; [done|]. simpl. apply load_after_save.
  - intros w0 w0' Hmain.
    destruct (main_done _ _ Hmain) as (ls & _ & _ & _ & Hsf & _).
    eexists. split; [exact Hsf|]. rewrite load_saved. set_solver.
Qed.

End WithConfig.

Section Witnesses.
Import Examples.

Abbreviation run_main := (Scraper.main any_bracketed_host default_target no_webhook).
Abbreviation run_scrape := (Scraper.scrape_events any_bracketed_host default_target).
Abbreviation found := (Scraper.extract_all any_bracketed_host default_target).

Lemma dedup_keeps_unseen_in_page_order_witness :
  page seen_world = Some [link_full; link_query_error; link_bare]
  /\ run_scrape seen_world = (seen_world, Done ([], load_seen_events seen_world)).
Proof.
  split; [reflexivity|].
  destruct (dedup_keeps_unseen_in_page_order any_bracketed_host default_target
              ∅ [] seen_world [link_full; link_query_error; link_bare] eq_refl)
    as (_ & _ & _ & ->).
  vm_compute. reflexivity.
Defined.

Lemma second_run_finds_nothing_new_witness :
  run_main fresh_world = (fst (run_main fresh_world), Done tt)
  /\ exists seen_ids,
       run_scrape (fst (run_main fresh_world))
       = (fst (run_main fresh_world), Done ([], seen_ids)).
Proof.
  assert (H : run_main fresh_world = (fst (run_main fresh_world), Done tt))
    by (vm_compute; reflexivity).
  split; [exact H|].
  exact (proj1 (second_run_finds_nothing_new any_bracketed_host default_target
                  no_webhook fresh_world (fst (run_main fresh_world))
                  (fst (run_main fresh_world)) H eq_refl eq_refl)).
Defined.

Lemma seen_set_only_grows_witness :
  run_main seen_world = (fst (run_main seen_world), Done tt)
  /\ load_seen_events seen_world ⊆ load_seen_events (fst (run_main seen_world)).
Proof.
  assert (H : run_main seen_world = (fst (run_main seen_world), Done tt))
    by (vm_compute; reflexivity).
  split; [exact H|].
  destruct (seen_set_only_grows any_bracketed_host default_target no_webhook
              seen_world _ H) as (? & ? & _ & _ & _ & Hsub).
  exact Hsub.
Defined.

Lemma exit_status_follows_the_writes_witness :
  page readonly_store_world = Some [link_full]
  /\ exit_status (snd (run_main readonly_store_world)) = 1
  /\ exit_status (snd (run_main readonly_feed_world)) = 1
  /\ exit_status (snd (run_main seen_world)) = 0.
Proof.
  split; [reflexivity|]. split; [|split].
  - destruct (exit_status_follows_the_writes any_bracketed_host default_target
                no_webhook readonly_store_world [link_full] eq_refl)
      as (Hstore & _ & _).
    apply Hstore. reflexivity.
  - destruct (exit_status_follows_the_writes any_bracketed_host default_target
                no_webhook readonly_feed_world [link_full] eq_refl)
      as (_ & Hfeed & _).
    apply Hfeed; [vm_compute; discriminate | reflexivity].
  - destruct (exit_status_follows_the_writes any_bracketed_host default_target
                no_webhook seen_world _ eq_refl)
      as (_ & _ & Hok).
    apply Hok; [reflexivity | left; vm_compute; reflexivity].
Defined.

Lemma nothing_new_touches_only_the_store_witness :
  page seen_world = Some [link_full; link_query_error; link_bare]
  /\ new_only (load_seen_events seen_world)
       (found [link_full; link_query_error; link_bare]) = []
  /\ feed_file (fst (run_main seen_world)) = Content "<rss></rss>"
  /\ state_file (fst (run_main seen_world))
     = Content ["https://www.eugloh.eu/courses/42";
                "https://www.eugloh.eu/old";
                "https://www.eugloh.eu/reg"]
  /\ load_seen_events (fst (run_main seen_world)) = load_seen_events seen_world.
Proof.
  assert (Hnew : new_only (load_seen_events seen_world)
                   (found [link_full; link_query_error; link_bare]) = [])
    by (vm_compute; reflexivity).
  split; [reflexivity|]. split; [exact Hnew|].
  destruct (nothing_new_touches_only_the_store any_bracketed_host default_target
              no_webhook seen_world _ eq_refl Hnew) as (_ & Hfeed & Hstore & _).
  destruct (Hstore eq_refl) as (Hmain & Hload).
  split; [rewrite Hfeed; reflexivity|]. split; [|exact Hload].
  rewrite Hmain. vm_compute. reflexivity.
Defined.

End Witnesses.

End RunProps.

(* ===================================================================== *)
(** * Properties of the extraction *)
(* ===================================================================== *)

Module ExtractProps.
Import PyStr Scraper.

Section WithConfig.

Variable bracketed_host_ok : string -> bool.
Variable TARGET_URL : string.

Abbreviation normalize_url := (Scraper.normalize_url bracketed_host_ok).
Abbreviation extract_body := (Scraper.extract_body bracketed_host_ok).
Abbreviation extract_event_data := (Scraper.extract_event_data bracketed_host_ok).
Abbreviation extract_all := (Scraper.extract_all bracketed_host_ok TARGET_URL).
Abbreviation scrape_events := (Scraper.scrape_events bracketed_host_ok TARGET_URL).

(** No ancestor has an element for the title query or for the date query. *)
Definition nothing_around (link_element : LinkElement) : Prop :=
  Forall (fun ancestor => select_title ancestor = NoMatch
                          /\ select_date ancestor = NoMatch)
         (parents link_element).

Lemma truthy_nonempty s : truthy s = true <-> s <> "".
Proof. destruct s; simpl; split; congruence. Qed.

Lemma str_or_nonempty a b : b <> "" -> str_or a b <> "".
Proof.
  intros Hb. unfold str_or. destruct (truthy a) eqn:Ha; [|done].
  by apply truthy_nonempty.
Qed.

Lemma first_match_none select ancestors :
  Forall (fun ancestor => select ancestor = NoMatch) ancestors ->
  first_match select ancestors = Ok None.
Proof.
  induction 1 as [|ancestor rest Hhead _ IH]; simpl; [done|].
  by rewrite Hhead.
Qed.

Lemma extract_all_app before after :
  extract_all (before ++ after) = extract_all before ++ extract_all after.
Proof.
  induction before as [|link_elem rest IH]; simpl; [done|].
  destruct (extract_event_data link_elem TARGET_URL); simpl; by rewrite IH.
Qed.

(** Every event that comes out of the extraction has a title and a date. *)
Lemma extracted_fields_nonempty link_element base_url event :
  extract_event_data link_element base_url = Some event ->
  ev_title event <> "" /\ ev_date event <> "".
Proof.
  unfold Scraper.extract_event_data, Scraper.extract_body.
  destruct (negb (truthy (default "" (href link_element)))); [done|].
  destruct (normalize_url _ _) as [[stable_id full_link]|]; simpl; [|done].
  destruct (first_match select_title _) as [title_elem|]; simpl; [|done].
  destruct (first_match select_date _) as [date_elem|]; simpl; [|done].
  intros [= <-]. simpl. split.
  - destruct (truthy (match title_elem with Some e => text e | None => "" end))
      eqn:Ht; simpl.
    + by apply truthy_nonempty.
    + by apply str_or_nonempty.
  - destruct (truthy (match date_elem with
                      | Some e => str_or (default "" (attr_datetime e)) (text e)
                      | None => ""
                      end)) eqn:Hd; simpl.
    + by apply truthy_nonempty.
    + done.
Qed.

(** C5, amended. A link with a non-empty reference that normalises, and
    whose ancestors all answer the title query and the date query with no
    element (no query raises), yields an event: its title is the link
    text, or "Untitled Event" when that is empty, its date is "Date TBD".
    The title and the date of every extracted event are non-empty. *)
Theorem fallback_event_when_reference_normalises
    (link_element : LinkElement) (base_url stable_id full_link : string) :
  truthy (default "" (href link_element)) = true ->
  nothing_around link_element ->
  normalize_url (default "" (href link_element)) base_url
    = Some (stable_id, full_link) ->
  extract_event_data link_element base_url
    = Some (mkEvent stable_id full_link
              (if truthy (link_text link_element)
               then link_text link_element else "Untitled Event")
              "Date TBD")
  /\ (forall other base event,
        extract_event_data other base = Some event ->
        ev_title event <> "" /\ ev_date event <> "").
Proof.
  intros Hhref Haround Hnorm. split; [|apply extracted_fields_nonempty].
  unfold Scraper.extract_event_data, Scraper.extract_body.
  rewrite Hhref, Hnorm. simpl.
  rewrite !first_match_none; [done | |].
  - eapply Forall_impl; [exact Haround|]. by intros ? [_ ?].
  - eapply Forall_impl; [exact Haround|]. by intros ? [? _].
Qed.

(** C7. A link element without reference, or with an empty one, gives no
    event and no error; a failure inside the extraction of one element
    gives no event either; in both cases the loop goes on with the other
    elements, and [scrape_events] returns. *)
Theorem failed_candidate_is_skipped
    (link_element : LinkElement) (before after : list LinkElement) (w : World) :
  href link_element = None \/ href link_element = Some ""
  \/ extract_body link_element TARGET_URL = Raise ->
  page w = Some (before ++ link_element :: after) ->
  extract_event_data link_element TARGET_URL = None
  /\ (href link_element = None \/ href link_element = Some "" ->
      forall base_url, extract_body link_element base_url = Ok None)
  /\ extract_all (before ++ link_element :: after)
     = extract_all before ++ extract_all after
  /\ scrape_events w
     = (w, Done (new_only (load_seen_events w)
                          (extract_all before ++ extract_all after),
                 load_seen_events w)).
Proof.
  intros Hbad Hpage.
  assert (Habsent : href link_element = None \/ href link_element = Some "" ->
                    forall base_url, extract_body link_element base_url = Ok None).
  { intros [H|H] base_url; unfold Scraper.extract_body; by rewrite H. }
  assert (Hnone : extract_event_data link_element TARGET_URL = None).
  { unfold Scraper.extract_event_data.
    destruct Hbad as [H|[H|H]].
    - by rewrite (Habsent (or_introl H)).
    - by rewrite (Habsent (or_intror H)).
    - by rewrite H. }
  assert (Hall : extract_all (before ++ link_element :: after)
                 = extract_all before ++ extract_all after).
  { rewrite extract_all_app. simpl. by rewrite Hnone. }
  repeat split; try done.
  unfold Scraper.scrape_events. by rewrite Hpage, Hall.
Qed.

End WithConfig.

Section Witnesses.
Import Examples.

Lemma fallback_event_when_reference_normalises_witness :
  truthy (default "" (href link_untitled)) = true
  /\ nothing_around link_untitled
  /\ Scraper.extract_event_data any_bracketed_host link_untitled default_target
     = Some (mkEvent "https://www.eugloh.eu/courses-trainings/summer-school"
                     "https://www.eugloh.eu/courses-trainings/summer-school"
                     "Untitled Event" "Date TBD").
Proof.
  assert (Haround : nothing_around link_untitled) by (repeat constructor).
  assert (Hnorm : Scraper.normalize_url any_bracketed_host
                    (default "" (href link_untitled)) default_target
                  = Some ("https://www.eugloh.eu/courses-trainings/summer-school",
                          "https://www.eugloh.eu/courses-trainings/summer-school"))
    by (vm_compute; reflexivity).
  split; [reflexivity|]. split; [exact Haround|].
  exact (proj1 (fallback_event_when_reference_normalises any_bracketed_host
                  link_untitled default_target _ _ eq_refl Haround Hnorm)).
Defined.

(** C5 as stated fails: the reference [//[] is not empty and nothing is
    found around the link, yet no event comes out, because [urljoin]
    raises on the unclosed bracket and the [except] clause returns
    [None].  The same clause returns [None] for a link with a good
    reference when the title query raises on its container. *)
Lemma fallback_event_absent_on_bad_reference :
  href link_bad_host = Some "//["
  /\ nothing_around link_bad_host
  /\ Scraper.extract_event_data any_bracketed_host link_bad_host default_target
     = None
  /\ href link_query_error = Some "/reg/9"
  /\ parents link_query_error = [mkAncestor SelectError NoMatch]
  /\ Scraper.extract_event_data any_bracketed_host link_query_error default_target
     = None.
Proof.
  split; [reflexivity|]. split; [repeat constructor|].
  split; [vm_compute; reflexivity|]. split; [reflexivity|].
  split; [reflexivity|]. vm_compute. reflexivity.
Qed.

Lemma failed_candidate_is_skipped_witness :
  Scraper.extract_body any_bracketed_host link_query_error default_target = Raise
  /\ page fresh_world = Some ([link_full] ++ link_query_error :: [link_bare])
  /\ Scraper.extract_all any_bracketed_host default_target
       [link_full; link_query_error; link_bare]
     = [mkEvent "https://www.eugloh.eu/reg"
                "https://www.eugloh.eu/reg?sid=123#top" "Intro Bio" "2025-05-01";
        mkEvent "https://www.eugloh.eu/courses/42"
                "https://www.eugloh.eu/courses/42?ref=home" "Sign up" "Date TBD"].
Proof.
  assert (Hraise : Scraper.extract_body any_bracketed_host link_query_error
                     default_target = Raise)
    by (vm_compute; reflexivity).
  split; [exact Hraise|]. split; [reflexivity|].
  destruct (failed_candidate_is_skipped any_bracketed_host default_target
              link_query_error [link_full] [link_bare] fresh_world
              (or_intror (or_intror Hraise)) eq_refl)
    as (_ & _ & Hall & _).
  etransitivity; [exact Hall|]. vm_compute. reflexivity.
Defined.

End Witnesses.

End ExtractProps.

(* ===================================================================== *)
(** * Lemmas on the string operations *)
(* ===================================================================== *)

Module StrProps.
Import PyStr.

(** [sep] and [t] differ at a position that both have. *)
Fixpoint clash (sep t : string) : bool :=
  match sep, t with
  | String a sep', String b t' => if Ascii.eqb a b then clash sep' t' else true
  | _, _ => false
  end.

(** No occurrence of [sep] can start inside [chunk], whatever follows it:
    at each position the text of [chunk] from there on already differs
    from [sep]. *)
Fixpoint inert (sep chunk : string) : bool :=
  match chunk with
  | EmptyString => true
  | String _ rest => clash sep chunk && inert sep rest
  end.

(** [c] does not occur in [s]. *)
Definition free_of (c : ascii) (s : string) : bool :=
  all_chars (fun d => negb (Ascii.eqb d c)) s.

(** Put [v] in front of the first string of a list. *)
Definition glue (v : string) (l : list string) : list string :=
  match l with
  | h :: t => (v +:+ h) :: t
  | [] => [v]
  end.

Lemma append_cons x a b : String x a +:+ b = String x (a +:+ b).
Proof. reflexivity. Qed.

Lemma append_assoc a b c : (a +:+ b) +:+ c = a +:+ b +:+ c.
Proof.
  induction a as [|x a IH]; [done|]. rewrite !append_cons. by f_equal.
Qed.

Lemma append_nil_r a : a +:+ "" = a.
Proof. induction a as [|x a IH]; [done|]. rewrite append_cons. by f_equal. Qed.

Lemma length_append a b :
  String.length (a +:+ b) = String.length a + String.length b.
Proof.
  induction a as [|x a IH]; [done|]. rewrite append_cons. simpl. by f_equal.
Qed.

Lemma drop_append a s : drop (String.length a) (a +:+ s) = s.
Proof.
  induction a as [|x a IH]; [by destruct s|]. rewrite append_cons. exact IH.
Qed.

Lemma take_append a s : take (String.length a) (a +:+ s) = a.
Proof.
  induction a as [|x a IH]; [by destruct s|]. rewrite append_cons. simpl.
  by f_equal.
Qed.

Lemma prefix_cons a s1 b s2 :
  String.prefix (String a s1) (String b s2) = Ascii.eqb a b && String.prefix s1 s2.
Proof.
  simpl. destruct (ascii_dec a b) as [->|Hne].
  - by rewrite Ascii.eqb_refl.
  - by apply Ascii.eqb_neq in Hne as ->.
Qed.

Lemma prefix_append sep s : String.prefix sep (sep +:+ s) = true.
Proof.
  induction sep as [|a sep IH]; [by destruct s|].
  change (String a sep +:+ s) with (String a (sep +:+ s)).
  by rewrite prefix_cons, Ascii.eqb_refl.
Qed.

Lemma clash_prefix sep t s :
  clash sep t = true -> String.prefix sep (t +:+ s) = false.
Proof.
  revert t. induction sep as [|a sep IH]; intros [|b t] H; try done.
  change (String b t +:+ s) with (String b (t +:+ s)).
  rewrite prefix_cons. simpl in H.
  destruct (Ascii.eqb a b); [by rewrite IH | done].
Qed.

Lemma clash_append sep t s : clash sep t = true -> clash sep (t +:+ s) = true.
Proof.
  revert t. induction sep as [|a sep IH]; intros [|b t] H; try done.
  simpl in *. destruct (Ascii.eqb a b); [by apply IH | done].
Qed.

Lemma inert_app sep a b :
  inert sep a = true -> inert sep b = true -> inert sep (a +:+ b) = true.
Proof.
  intros Ha Hb. induction a as [|x a IH]; [done|].
  simpl in Ha. apply andb_true_iff in Ha as [Hc Ha].
  change (String x a +:+ b) with (String x (a +:+ b)).
  change (inert sep (String x (a +:+ b)))
    with (clash sep (String x a +:+ b) && inert sep (a +:+ b)).
  by rewrite (clash_append _ _ _ Hc), IH.
Qed.

(** A chunk without the first character of [sep] is inert. *)
Lemma free_inert c sep chunk :
  free_of c chunk = true -> inert (String c sep) chunk = true.
Proof.
  induction chunk as [|x chunk IH]; [done|].
  unfold free_of. simpl. intros [Hx Hrest]%andb_true_iff.
  rewrite Ascii.eqb_sym in Hx. apply negb_true_iff in Hx. rewrite Hx. simpl.
  by apply IH.
Qed.

Lemma free_of_app c a b :
  free_of c (a +:+ b) = free_of c a && free_of c b.
Proof.
  unfold free_of. induction a as [|x a IH]; simpl; [done|].
  by rewrite IH, andb_assoc.
Qed.

Lemma free_of_replace c r s :
  free_of c r = true -> free_of c (replace_char c r s) = true.
Proof.
  intros Hr. induction s as [|x s IH]; [done|]. simpl.
  destruct (Ascii.eqb x c) eqn:Hx.
  - by rewrite free_of_app, Hr, IH.
  - unfold free_of in *. simpl. by rewrite Hx, IH.
Qed.

Lemma free_of_replace_other c d r s :
  free_of c r = true -> free_of c s = true ->
  free_of c (replace_char d r s) = true.
Proof.
  intros Hr. induction s as [|x s IH]; [done|].
  unfold free_of at 1. simpl. intros [Hx Hs]%andb_true_iff.
  destruct (Ascii.eqb x d).
  - rewrite free_of_app, Hr. by apply IH.
  - unfold free_of in *. simpl. by rewrite Hx, IH.
Qed.

Lemma glue_glue a b l : glue a (glue b l) = glue (a +:+ b) l.
Proof. destruct l; simpl; by rewrite ?append_assoc. Qed.

Lemma glue_nil l : glue "" l = match l with [] => [""] | _ => l end.
Proof. by destruct l. Qed.

Lemma split_go_nonempty sep skip s : split_go sep skip s <> [].
Proof.
  revert skip. induction s as [|c s IH]; intros skip; [done|].
  cbn [split_go]. destruct skip; [|apply IH].
  destruct (String.prefix sep (String c s)); [done|].
  by destruct (split_go sep 0 s).
Qed.

Lemma split_go_inert sep chunk s :
  inert sep chunk = true ->
  split_go sep 0 (chunk +:+ s) = glue chunk (split_go sep 0 s).
Proof.
  induction chunk as [|x chunk IH]; intros H.
  - change ("" +:+ s) with s. rewrite glue_nil.
    destruct (split_go sep 0 s) eqn:E; [by apply split_go_nonempty in E | done].
  - simpl in H. apply andb_true_iff in H as [Hc H].
    change (String x chunk +:+ s) with (String x (chunk +:+ s)).
    cbn [split_go].
    change (String x (chunk +:+ s)) with (String x chunk +:+ s) at 1.
    rewrite (clash_prefix _ _ _ Hc), (IH H).
    destruct (split_go sep 0 s) eqn:E; [by apply split_go_nonempty in E | done].
Qed.

Lemma split_go_skip sep t s :
  split_go sep (String.length t) (t +:+ s) = split_go sep 0 s.
Proof.
  induction t as [|x t IH]; [done|]. rewrite append_cons. exact IH.
Qed.

(** At an occurrence of the separator a new part starts. *)
Lemma split_go_sep a sep s :
  split_go (String a sep) 0 (String a sep +:+ s)
  = "" :: split_go (String a sep) 0 s.
Proof.
  change (String a sep +:+ s) with (String a (sep +:+ s)).
  cbn [split_go].
  change (String a (sep +:+ s)) with (String a sep +:+ s).
  rewrite prefix_append. f_equal.
  change (String.length (String a sep) - 1) with (String.length sep - 0).
  rewrite Nat.sub_0_r. apply split_go_skip.
Qed.

Lemma find_inert sep chunk s :
  inert sep chunk = true ->
  find sep (chunk +:+ s) = (fun i => String.length chunk + i) <$> find sep s.
Proof.
  induction chunk as [|x chunk IH]; intros H.
  - change ("" +:+ s) with s. by destruct (find sep s).
  - simpl in H. apply andb_true_iff in H as [Hc H].
    change (String x chunk +:+ s) with (String x (chunk +:+ s)).
    cbn [find].
    change (String x (chunk +:+ s)) with (String x chunk +:+ s) at 1.
    rewrite (clash_prefix _ _ _ Hc), (IH H). by destruct (find sep s).
Qed.

Lemma find_here sep s : find sep (sep +:+ s) = Some 0.
Proof.
  destruct sep as [|a sep]; [by destruct s|].
  change (String a sep +:+ s) with (String a (sep +:+ s)).
  cbn [find].
  change (String a (sep +:+ s)) with (String a sep +:+ s).
  by rewrite prefix_append.
Qed.

(** ** Reading in text mode *)

(** Whether a reader that has passed [s] has just seen a carriage return. *)
Fixpoint cr_state (after_cr : bool) (s : string) : bool :=
  match s with
  | EmptyString => after_cr
  | String c rest => cr_state (Ascii.eqb c "013") rest
  end.

Lemma newlines_go_app b a s :
  newlines_go b (a +:+ s) = newlines_go b a +:+ newlines_go (cr_state b a) s.
Proof.
  revert b. induction a as [|c a IH]; intros b; [done|].
  rewrite append_cons. cbn [newlines_go cr_state].
  destruct (Ascii.eqb c "013"); [by rewrite IH|].
  destruct (Ascii.eqb c "010" && b); by rewrite IH.
Qed.

(** A character that is no line end is read as it is, whatever came
    before it. *)
Lemma newlines_go_plain b c s :
  Ascii.eqb c "013" = false -> Ascii.eqb c "010" = false ->
  newlines_go b (String c s) = String c (newlines_go false s).
Proof. intros Hr Hn. cbn [newlines_go]. by rewrite Hr, Hn. Qed.

Lemma free_of_newlines c b s :
  Ascii.eqb "010" c = false ->
  free_of c s = true -> free_of c (newlines_go b s) = true.
Proof.
  intros Hc. unfold free_of. revert b.
  induction s as [|d s IH]; intros b; [done|]. cbn [all_chars newlines_go].
  intros [Hd Hs]%andb_true_iff.
  destruct (Ascii.eqb d "013").
  - cbn [all_chars]. rewrite Hc. by apply IH.
  - destruct (Ascii.eqb d "010" && b); [by apply IH|].
    cbn [all_chars]. rewrite Hd. by apply IH.
Qed.

(** The text read has no carriage return, and a text without one is read
    as it is. *)
Lemma newlines_go_free_cr b s : free_of "013" (newlines_go b s) = true.
Proof.
  unfold free_of. revert b. induction s as [|d s IH]; intros b; [done|].
  cbn [newlines_go]. destruct (Ascii.eqb d "013") eqn:Hd.
  - cbn [all_chars]. by rewrite IH.
  - destruct (Ascii.eqb d "010" && b); [done|].
    cbn [all_chars]. by rewrite Hd, IH.
Qed.

Lemma universal_newlines_free_cr s :
  free_of "013" s = true -> universal_newlines s = s.
Proof.
  unfold universal_newlines, free_of. induction s as [|d s IH]; [done|].
  cbn [all_chars newlines_go]. intros [Hd Hs]%andb_true_iff.
  apply negb_true_iff in Hd. rewrite Hd, andb_false_r. by rewrite IH.
Qed.

Lemma universal_newlines_idem s :
  universal_newlines (universal_newlines s) = universal_newlines s.
Proof. apply universal_newlines_free_cr, newlines_go_free_cr. Qed.

(** Reading creates no occurrence of a text without line ends. *)
Lemma prefix_newlines sep s :
  free_of "013" sep = true -> free_of "010" sep = true ->
  String.prefix sep (newlines_go false s) = true -> String.prefix sep s = true.
Proof.
  unfold free_of. revert s.
  induction sep as [|a sep IH]; intros s Hr Hn; [by destruct s|].
  cbn [all_chars] in Hr, Hn.
  apply andb_true_iff in Hr as [Har Hr]. apply andb_true_iff in Hn as [Han Hn].
  apply negb_true_iff in Har, Han.
  destruct s as [|c s]; [done|]. cbn [newlines_go].
  destruct (Ascii.eqb c "013") eqn:Hc.
  - rewrite prefix_cons, Han. done.
  - rewrite andb_false_r, !prefix_cons.
    destruct (Ascii.eqb a c); [|done]. simpl. by apply IH.
Qed.

Lemma find_newlines sep b s :
  sep <> "" -> free_of "013" sep = true -> free_of "010" sep = true ->
  find sep s = None -> find sep (newlines_go b s) = None.
Proof.
  intros Hne Hr Hn. revert b.
  induction s as [|c s IH]; intros b; [done|]. cbn [find].
  destruct (String.prefix sep (String c s)) eqn:Hp; [done|].
  destruct (find sep s) eqn:Hf; [done|]. intros _.
  assert (Hlf : forall t, String.prefix sep (String "010" t) = false).
  { intros t. destruct sep as [|a sep]; [done|]. rewrite prefix_cons.
    unfold free_of in Hn. cbn [all_chars] in Hn.
    apply andb_true_iff in Hn as [Han _]. apply negb_true_iff in Han.
    by rewrite Han. }
  cbn [newlines_go]. destruct (Ascii.eqb c "013") eqn:Hc.
  - cbn [find]. rewrite Hlf, IH; done.
  - destruct (Ascii.eqb c "010" && b) eqn:Hcb; [by apply IH|].
    cbn [find].
    destruct (String.prefix sep (String c (newlines_go false s))) eqn:Hq.
    + assert (Hq' : String.prefix sep (newlines_go false (String c s)) = true).
      { cbn [newlines_go]. by rewrite Hc, andb_false_r. }
      apply prefix_newlines in Hq'; [congruence | done | done].
    + by rewrite IH.
Qed.

End StrProps.

(* ===================================================================== *)
(** * Properties of the feed publisher *)
(* ===================================================================== *)

Module FeedProps.
Import PyStr Scraper StrProps.

(** What [generate_rss_item] puts between [<item>] and [</item>]. *)
Definition item_body (event : Event) (now : Clock.DateTime) : string :=
  "
    <title>" +:+ Sax.escape (ev_title event) +:+ "</title>
    <link>" +:+ Sax.escape (ev_link event) +:+ "</link>
    <description>"
  +:+ Sax.escape ("Registration Date: " +:+ Sax.escape (ev_date event))
  +:+ "</description>
    <pubDate>" +:+ Clock.rfc822 now +:+ "</pubDate>
    <guid isPermaLink=" +:+ dquote +:+ "true" +:+ dquote +:+ ">"
  +:+ Sax.escape (ev_link event) +:+ "</guid>
  ".

(** An item as [update_rss_feed] reads it back: from [<item>] on. *)
Definition entry (body : string) : string := "<item>" +:+ body +:+ "</item>".

(** The item that [generate_rss_item] returns at time [now]. *)
Definition rss_item (event : Event) (now : Clock.DateTime) : string :=
  "  " +:+ entry (item_body event now).

(** The bodies of the items of a list of events, rendered at successive
    readings of the clock. *)
Fixpoint bodies_of (clock : nat -> Clock.DateTime) (start : nat)
    (events : list Event) : list string :=
  match events with
  | [] => []
  | event :: rest =>
      item_body event (clock start) :: bodies_of clock (S start) rest
  end.

(** The items as [generate_rss_item] returns them. *)
Definition render_all (clock : nat -> Clock.DateTime) (start : nat)
    (events : list Event) : list string :=
  (fun body => "  " +:+ entry body) <$> bodies_of clock start events.

(** The same items as they are read back. *)
Definition entries_of (clock : nat -> Clock.DateTime) (start : nat)
    (events : list Event) : list string :=
  entry <$> bodies_of clock start events.

(** The world after [n] readings of the clock. *)
Fixpoint advance (n : nat) (w : World) : World :=
  match n with
  | O => w
  | S k => advance k (tick w)
  end.

(** ** Characters that the rendered fields cannot contain *)

Lemma escape_free_lt s : free_of "<" (Sax.escape s) = true.
Proof. unfold Sax.escape. by apply free_of_replace. Qed.

Lemma escape_free_gt s : free_of ">" (Sax.escape s) = true.
Proof.
  unfold Sax.escape. apply free_of_replace_other; [done|].
  by apply free_of_replace.
Qed.

Lemma free_of_nth c n l :
  forallb (free_of c) l = true -> free_of c (nth n l "") = true.
Proof.
  revert n. induction l as [|x l IH]; intros [|n] H; simpl in *; try done.
  - by apply andb_true_iff in H as [? _].
  - apply andb_true_iff in H as [_ ?]. by apply IH.
Qed.

Lemma free_of_uint c d :
  is_digit c = false -> free_of c (NilEmpty.string_of_uint d) = true.
Proof.
  intros Hc. unfold free_of.
  induction d; cbn [NilEmpty.string_of_uint all_chars]; try done;
    rewrite IHd, andb_true_r;
    apply negb_true_iff, Ascii.eqb_neq; intros <-; by vm_compute in Hc.
Qed.

Lemma free_of_decimal c n : is_digit c = false -> free_of c (Clock.decimal n) = true.
Proof.
  intros Hc. unfold Clock.decimal, NilZero.string_of_uint.
  destruct (Nat.to_uint n) eqn:E; try (rewrite <- E; by apply free_of_uint).
  unfold free_of. cbn [all_chars]. rewrite andb_true_r.
  apply negb_true_iff, Ascii.eqb_neq. intros <-. by vm_compute in Hc.
Qed.

Lemma free_of_pad2 c n : is_digit c = false -> free_of c (Clock.pad2 n) = true.
Proof.
  intros Hc. unfold Clock.pad2. destruct (n <? 10)%nat.
  - rewrite free_of_app, free_of_decimal, andb_true_r by done.
    unfold free_of. cbn [all_chars]. rewrite andb_true_r.
    apply negb_true_iff, Ascii.eqb_neq. intros <-. by vm_compute in Hc.
  - by apply free_of_decimal.
Qed.

Lemma rfc822_free_lt now : free_of "<" (Clock.rfc822 now) = true.
Proof.
  unfold Clock.rfc822.
  rewrite !free_of_app, !free_of_pad2, !free_of_decimal, !free_of_nth by done.
  done.
Qed.

(** ** No item boundary inside the rendered texts, as a reader in text
    mode returns them *)

Lemma cr_state_app b a s : cr_state b (a +:+ s) = cr_state (cr_state b a) s.
Proof.
  revert b. induction a as [|c a IH]; intros b; [done|].
  rewrite append_cons. cbn [cr_state]. apply IH.
Qed.

Lemma cr_state_free_cr s : free_of "013" s = true -> cr_state false s = false.
Proof.
  unfold free_of. induction s as [|c s IH]; [done|]. cbn [all_chars cr_state].
  intros [Hc Hs]%andb_true_iff. apply negb_true_iff in Hc. rewrite Hc. by apply IH.
Qed.

Ltac read_pieces :=
  repeat first
    [ reflexivity
    | apply free_inert; apply free_of_newlines;
      [reflexivity | first [apply escape_free_lt | apply rfc822_free_lt]]
    | apply inert_app ].

Lemma item_body_read_inert_close event now :
  inert "</item>" (universal_newlines (item_body event now)) = true.
Proof.
  unfold item_body, universal_newlines. rewrite !newlines_go_app. read_pieces.
Qed.

Lemma universal_newlines_entry body :
  universal_newlines (entry body) = entry (universal_newlines body).
Proof.
  unfold entry, universal_newlines. rewrite !newlines_go_app. reflexivity.
Qed.

Section HeadRead.

Variable TARGET_URL : string.

Lemma feed_head_read_inert_close now :
  inert "</item>" (universal_newlines (feed_head TARGET_URL (Clock.rfc822 now))) = true.
Proof.
  unfold feed_head, universal_newlines. rewrite !newlines_go_app. read_pieces.
Qed.

Lemma feed_head_read_inert_open now :
  inert "<item>" (universal_newlines (feed_head TARGET_URL (Clock.rfc822 now))) = true.
Proof.
  unfold feed_head, universal_newlines. rewrite !newlines_go_app. read_pieces.
Qed.

Lemma feed_head_cr_state now :
  cr_state false (feed_head TARGET_URL (Clock.rfc822 now)) = false.
Proof. unfold feed_head. rewrite !cr_state_app. reflexivity. Qed.

End HeadRead.

(** Reading goes through the items one by one. *)
Lemma newlines_items leads_bodies tail :
  Forall (fun lb => free_of "013" lb.1 = true) leads_bodies ->
  newlines_go false
    (concat (map (fun lb => lb.1 +:+ entry lb.2) leads_bodies) +:+ tail)
  = concat (map (fun lb => lb.1 +:+ entry (universal_newlines lb.2)) leads_bodies)
    +:+ newlines_go false tail.
Proof.
  induction 1 as [|[lead body] rest Hlead _ IH]; [done|].
  cbn [map concat fold_right fst snd] in *.
  change (fold_right String.append "" (map (fun lb => lb.1 +:+ entry lb.2) rest))
    with (concat (map (fun lb => lb.1 +:+ entry lb.2) rest)).
  change (fold_right String.append ""
            (map (fun lb => lb.1 +:+ entry (universal_newlines lb.2)) rest))
    with (concat (map (fun lb => lb.1 +:+ entry (universal_newlines lb.2)) rest)).
  unfold entry at 1 3. rewrite !append_assoc.
  rewrite newlines_go_app, (cr_state_free_cr lead Hlead).
  fold (universal_newlines lead). rewrite (universal_newlines_free_cr lead Hlead).
  rewrite (newlines_go_app false "<item>").
  change (newlines_go false "<item>") with "<item>".
  change (cr_state false "<item>") with false.
  rewrite (newlines_go_app false body), (newlines_go_app _ "</item>").
  change (newlines_go (cr_state false body) "</item>") with "</item>".
  change (cr_state (cr_state false body) "</item>") with false.
  rewrite IH. reflexivity.
Qed.

(** Reading a text made of a head, items and a tail. *)
Lemma universal_newlines_feed head leads_bodies tail :
  cr_state false head = false ->
  Forall (fun lb => free_of "013" lb.1 = true) leads_bodies ->
  universal_newlines
    (head +:+ concat (map (fun lb => lb.1 +:+ entry lb.2) leads_bodies) +:+ tail)
  = universal_newlines head
    +:+ concat (map (fun lb => lb.1 +:+ entry lb.2)
                  (map (fun lb => (lb.1, universal_newlines lb.2)) leads_bodies))
    +:+ universal_newlines tail.
Proof.
  intros Hhead Hleads. unfold universal_newlines at 1.
  rewrite newlines_go_app, Hhead, (newlines_items _ _ Hleads).
  by rewrite map_map.
Qed.

Lemma universal_newlines_feed_tail : universal_newlines feed_tail = feed_tail.
Proof. reflexivity. Qed.

(** ** The items read back from a feed text *)

Lemma existing_item_entry lead body :
  inert "<item>" lead = true ->
  existing_item (lead +:+ "<item>" +:+ body) = [entry body].
Proof.
  intros Hlead. unfold existing_item, contains.
  rewrite (find_inert _ _ _ Hlead), find_here. simpl.
  rewrite Nat.add_0_r, drop_append. unfold entry.
  by rewrite append_assoc.
Qed.

Lemma removelast_cons2 {A} (x y : A) l :
  removelast (x :: y :: l) = x :: removelast (y :: l).
Proof. reflexivity. Qed.

Lemma flat_map_cons1 {A B} (f : A -> list B) x l :
  flat_map f (x :: l) = f x ++ flat_map f l.
Proof. reflexivity. Qed.

(** A text made of a head, items and a tail splits at the end of each
    item; every part but the last holds one item. *)
Lemma split_items head leads_bodies tail :
  inert "</item>" head = true ->
  inert "<item>" head = true ->
  Forall (fun lb => inert "</item>" lb.1 = true /\ inert "<item>" lb.1 = true
                    /\ inert "</item>" lb.2 = true) leads_bodies ->
  inert "</item>" tail = true ->
  flat_map existing_item
    (removelast
       (split_go "</item>" 0
          (head +:+ concat (map (fun lb => lb.1 +:+ entry lb.2) leads_bodies)
           +:+ tail)))
  = map (fun lb => entry lb.2) leads_bodies.
Proof.
  intros Hhc Hho Hall Htail. revert head Hhc Hho.
  induction Hall as [|[lead body] rest (Hlc & Hlo & Hbc) _ IH]; intros head Hhc Hho.
  - simpl. change ("" +:+ tail) with tail.
    rewrite (split_go_inert _ _ _ Hhc).
    rewrite <- (append_nil_r tail) at 1.
    by rewrite (split_go_inert _ _ _ Htail).
  - cbn [map concat fold_right fst snd]. unfold entry at 1.
    rewrite !append_assoc.
    rewrite (split_go_inert _ _ _ Hhc), (split_go_inert _ _ _ Hlc).
    rewrite (split_go_inert "</item>" "<item>") by reflexivity.
    rewrite (split_go_inert _ _ _ Hbc), split_go_sep, !glue_glue.
    cbn [glue].
    change (fold_right String.append "" (map (fun lb => lb.1 +:+ entry lb.2) rest))
      with (concat (map (fun lb => lb.1 +:+ entry lb.2) rest)).
    specialize (IH "" eq_refl eq_refl).
    change ("" +:+ concat (map (fun lb => lb.1 +:+ entry lb.2) rest) +:+ tail)
      with (concat (map (fun lb => lb.1 +:+ entry lb.2) rest) +:+ tail) in IH.
    destruct (split_go "</item>" 0
                (concat (map (fun lb => lb.1 +:+ entry lb.2) rest) +:+ tail))
      as [|part parts] eqn:E; [by apply split_go_nonempty in E|].
    rewrite removelast_cons2, flat_map_cons1, IH. simpl fst. simpl snd.
    rewrite append_nil_r, !append_assoc, <- (append_assoc head lead).
    rewrite existing_item_entry by (by apply inert_app).
    reflexivity.
Qed.

(** ** The publisher, step by step *)

Lemma advance_fields n w :
  page (advance n w) = page w /\ state_file (advance n w) = state_file w
  /\ feed_file (advance n w) = feed_file w
  /\ state_writable (advance n w) = state_writable w
  /\ feed_writable (advance n w) = feed_writable w
  /\ clock (advance n w) = clock w
  /\ ticks (advance n w) = ticks w + n
  /\ posted (advance n w) = posted w
  /\ state_failure (advance n w) = state_failure w
  /\ feed_failure (advance n w) = feed_failure w.
Proof.
  revert w. induction n as [|n IH]; intros w; simpl.
  - rewrite Nat.add_0_r. by repeat split.
  - destruct (IH (tick w)) as (-> & -> & -> & -> & -> & -> & -> & -> & -> & ->).
    simpl. repeat split; try done; lia.
Qed.

Lemma advance_succ n w : advance (S n) w = tick (advance n w).
Proof. revert w. induction n as [|n IH]; intros w; [done|]. apply (IH (tick w)). Qed.

Lemma generate_rss_item_spec event w :
  generate_rss_item event w = (tick w, Done (rss_item event (clock w (ticks w)))).
Proof.
  unfold generate_rss_item, bind, utcnow, ret, rss_item, entry, item_body.
  do 2 f_equal. by rewrite !append_assoc.
Qed.

Lemma generate_rss_items_spec events w :
  generate_rss_items events w
  = (advance (length events) w, Done (render_all (clock w) (ticks w) events)).
Proof.
  revert w. induction events as [|event rest IH]; intros w; [done|].
  cbn [generate_rss_items]. unfold bind at 1. rewrite generate_rss_item_spec.
  unfold bind at 1. rewrite IH. reflexivity.
Qed.

Lemma length_bodies_of clock start events :
  length (bodies_of clock start events) = length events.
Proof.
  revert start. induction events as [|e rest IH]; intros start; simpl; [done|].
  by rewrite IH.
Qed.

Lemma bodies_of_read_inert clock start events :
  Forall (fun body => inert "</item>" (universal_newlines body) = true)
         (bodies_of clock start events).
Proof.
  revert start. induction events as [|e rest IH]; intros start; simpl.
  - constructor.
  - constructor; [apply item_body_read_inert_close | apply IH].
Qed.

Lemma read_existing_items_feed w w' :
  feed_file w' = feed_file w -> read_existing_items w' = read_existing_items w.
Proof. unfold read_existing_items. by intros ->. Qed.

Section Publisher.

Variable TARGET_URL : string.

Abbreviation update_rss_feed := (Scraper.update_rss_feed TARGET_URL).

(** The text that [update_rss_feed] writes. *)
Definition feed_text (new_events : list Event) (w : World) : string :=
  feed_head TARGET_URL
    (Clock.rfc822 (clock w (ticks w + length new_events)))
  +:+ concat (render_all (clock w) (ticks w) (rev new_events)
              ++ read_existing_items w)
  +:+ feed_tail.

(** The world that [update_rss_feed] leaves when its write fails. *)
Definition feed_write_failed (new_events : list Event) (w : World) : World :=
  let w' := advance (S (length new_events)) w in
  match feed_failure w with
  | AtOpen => w'
  | WhileWriting written torn =>
      set_feed_file (if torn then Unreadable
                     else Content (take written (feed_text new_events w))) w'
  end.

Lemma update_rss_feed_some new_events w :
  new_events <> [] ->
  update_rss_feed new_events w
  = if feed_writable w
    then (set_feed_file (Content (feed_text new_events w))
            (advance (S (length new_events)) w), Done tt)
    else (feed_write_failed new_events w, Exit 1).
Proof.
  intros Hne. destruct new_events as [|e rest]; [done|].
  unfold Scraper.update_rss_feed, feed_write_failed. unfold bind at 1.
  rewrite generate_rss_items_spec. unfold bind, utcnow.
  rewrite length_rev.
  destruct (advance_fields (length (e :: rest)) w)
    as (_ & _ & _ & _ & Hfw & Hclock & Hticks & _ & _ & Hff).
  cbn [feed_writable feed_failure tick]. rewrite Hfw, Hclock, Hticks, Hff.
  rewrite (advance_succ (length (e :: rest)) w).
  destruct (feed_writable w); [done|]. by destruct (feed_failure w).
Qed.

(** Reading back a feed that was just written: the new items first, then
    the items that were there, each as the reader returns its text,
    provided the old ones are entries without an item boundary inside. *)
Lemma feed_text_reads_back new_events w old_bodies w' :
  read_existing_items w = entry <$> old_bodies ->
  Forall (fun body => inert "</item>" (universal_newlines body) = true) old_bodies ->
  feed_file w' = Content (feed_text new_events w) ->
  read_existing_items w'
  = (universal_newlines <$> entries_of (clock w) (ticks w) (rev new_events))
    ++ (universal_newlines <$> read_existing_items w).
Proof.
  intros Hold Hinert Hfeed. unfold read_existing_items at 1. rewrite Hfeed.
  cbn [split]. unfold feed_text, render_all, entries_of. rewrite Hold.
  set (new_bodies := bodies_of (clock w) (ticks w) (rev new_events)).
  pose (lbs := ((fun body => ("  ", body)) <$> new_bodies)
               ++ ((fun body => ("", body)) <$> old_bodies)).
  assert (Hitems : ((fun body => "  " +:+ entry body) <$> new_bodies)
                   ++ (entry <$> old_bodies)
                   = map (fun lb => lb.1 +:+ entry lb.2) lbs).
  { subst lbs. rewrite map_app, !map_map. reflexivity. }
  assert (Hentries : (universal_newlines <$> (entry <$> new_bodies))
                     ++ (universal_newlines <$> (entry <$> old_bodies))
                     = map (fun lb => entry lb.2)
                         (map (fun lb => (lb.1, universal_newlines lb.2)) lbs)).
  { subst lbs. rewrite <- !list_fmap_compose, !map_app.
    f_equal; rewrite !map_map; apply map_ext; intros body;
      apply universal_newlines_entry. }
  assert (Hleads : Forall (fun lb => free_of "013" lb.1 = true) lbs).
  { subst lbs. apply Forall_app. split; apply Forall_fmap, Forall_true; done. }
  rewrite Hitems, Hentries.
  rewrite (universal_newlines_feed _ _ _ (feed_head_cr_state _ _) Hleads).
  rewrite universal_newlines_feed_tail.
  apply split_items.
  - apply feed_head_read_inert_close.
  - apply feed_head_read_inert_open.
  - subst lbs. rewrite map_app. apply Forall_app.
    split; apply Forall_map, Forall_fmap; cbn [fst snd].
    + eapply Forall_impl; [apply bodies_of_read_inert|]. by intros body Hb.
    + eapply Forall_impl; [exact Hinert|]. by intros body Hb.
  - reflexivity.
Qed.

Lemma entries_of_length clock start events :
  length (entries_of clock start events) = length events.
Proof. unfold entries_of. by rewrite length_fmap, length_bodies_of. Qed.

(** Entries that were read are read again as they are. *)
Lemma read_twice (entries : list string) :
  universal_newlines <$> (universal_newlines <$> entries)
  = universal_newlines <$> entries.
Proof.
  rewrite <- list_fmap_compose. apply list_fmap_ext.
  intros _ e _. apply universal_newlines_idem.
Qed.

(** C6. Publishing [first] into a feed without entries (missing,
    unreadable, or without a closed item), then publishing [second] on the
    feed that the first call wrote: the second feed holds the entries of
    the second call, the last event of the page first, followed by the
    entries of the first call, unchanged and in the order they had; their
    number is the number of events published.  The entries are those that
    [generate_rss_item] renders, from [<item>] on and with their line ends
    as a reader in text mode returns them. *)
Theorem republished_feed_keeps_every_entry
    (w w1 w1' w2 : World) (first second : list Event) :
  read_existing_items w = [] ->
  update_rss_feed first w = (w1, Done tt) ->
  feed_file w1' = feed_file w1 ->
  update_rss_feed second w1' = (w2, Done tt) ->
  read_existing_items w1
  = universal_newlines <$> entries_of (clock w) (ticks w) (rev first)
  /\ read_existing_items w2
     = (universal_newlines <$> entries_of (clock w1') (ticks w1') (rev second))
       ++ read_existing_items w1
  /\ length (read_existing_items w2) = length second + length first
  /\ snd (generate_rss_items (rev first) w)
     = Done ((fun item => "  " +:+ item) <$> entries_of (clock w) (ticks w) (rev first))
  /\ snd (generate_rss_items (rev second) w1')
     = Done ((fun item => "  " +:+ item)
               <$> entries_of (clock w1') (ticks w1') (rev second)).
Proof.
  intros Hempty Hfirst Hfeed Hsecond.
  assert (H1 : read_existing_items w1
               = universal_newlines <$> entries_of (clock w) (ticks w) (rev first)).
  { destruct (decide (first = [])) as [->|Hne].
    - injection Hfirst as <-. by rewrite Hempty.
    - rewrite (update_rss_feed_some _ _ Hne) in Hfirst.
      destruct (feed_writable w); [|done]. injection Hfirst as <-.
      rewrite (feed_text_reads_back first w [] _ Hempty); [|constructor|done].
      by rewrite Hempty, app_nil_r. }
  assert (H2 : read_existing_items w2
               = (universal_newlines <$> entries_of (clock w1') (ticks w1') (rev second))
                 ++ read_existing_items w1).
  { destruct (decide (second = [])) as [->|Hne].
    - injection Hsecond as <-. simpl. by apply read_existing_items_feed.
    - rewrite (update_rss_feed_some _ _ Hne) in Hsecond.
      destruct (feed_writable w1'); [|done]. injection Hsecond as <-.
      rewrite (feed_text_reads_back second w1'
                 (universal_newlines <$> bodies_of (clock w) (ticks w) (rev first)));
        [| | |done].
      + rewrite (read_existing_items_feed w1 w1' Hfeed), H1. f_equal.
        apply read_twice.
      + rewrite (read_existing_items_feed w1 w1' Hfeed), H1.
        unfold entries_of. rewrite <- !list_fmap_compose.
        apply list_fmap_ext. intros _ body _. apply universal_newlines_entry.
      + apply Forall_fmap. eapply Forall_impl; [apply bodies_of_read_inert|].
        intros body Hb. simpl. by rewrite universal_newlines_idem. }
  split; [done|]. split; [done|]. split.
  - rewrite H2, H1, length_app, !length_fmap, !entries_of_length, !length_rev. done.
  - rewrite !generate_rss_items_spec. unfold render_all, entries_of.
    rewrite <- !list_fmap_compose. done.
Qed.

(** X2. A feed text in which no item is closed has no entries for the
    publisher: what it holds is not carried over when the feed is
    rewritten. *)
Theorem unclosed_feed_has_no_entries (w : World) (content : string) :
  feed_file w = Content content ->
  contains "</item>" content = false ->
  read_existing_items w = [].
Proof.
  intros Hfeed Hnone. unfold read_existing_items. rewrite Hfeed. cbn [split].
  unfold contains in Hnone.
  assert (Hparts : forall s, find "</item>" s = None ->
                             split_go "</item>" 0 s = [s]).
  { clear. induction s as [|c s IH]; [done|]. cbn [find split_go].
    destruct (String.prefix "</item>" (String c s)); [done|].
    destruct (find "</item>" s); [done|]. intros _. by rewrite IH. }
  destruct (find "</item>" content) eqn:E; [done|].
  rewrite (Hparts (universal_newlines content)); [done|].
  by apply find_newlines.
Qed.

End Publisher.

(** ** What [escape] does to the fields *)

Lemma replace_char_app c r a b :
  replace_char c r (a +:+ b) = replace_char c r a +:+ replace_char c r b.
Proof.
  induction a as [|x a IH]; [done|]. rewrite append_cons.
  cbn [replace_char]. rewrite IH.
  destruct (Ascii.eqb x c); [by rewrite append_assoc | done].
Qed.

Lemma escape_app a b : Sax.escape (a +:+ b) = Sax.escape a +:+ Sax.escape b.
Proof. unfold Sax.escape. by rewrite !replace_char_app. Qed.

Lemma replace_char_free c r s : free_of c s = true -> replace_char c r s = s.
Proof.
  unfold free_of. induction s as [|x s IH]; [done|]. cbn [all_chars replace_char].
  intros [Hx Hs]%andb_true_iff. apply negb_true_iff in Hx. rewrite Hx.
  by rewrite IH.
Qed.

Lemma escape_plain s :
  free_of "&" s = true -> free_of "<" s = true -> free_of ">" s = true ->
  Sax.escape s = s.
Proof.
  intros Ha Hl Hg. unfold Sax.escape.
  by rewrite (replace_char_free "&"), (replace_char_free ">"), (replace_char_free "<").
Qed.

(** X3. The text of an item, field by field.  The title and the link are
    escaped once; the date is escaped, put after "Registration Date: ",
    and the whole is escaped again, so it reaches the feed escaped twice:
    an ampersand of the date is written [&amp;amp;].  A date without
    [&], [<] and [>] is written as it is. *)
Theorem rendered_item_escapes_the_date_twice (event : Event) (w : World) :
  generate_rss_item event w =
    (tick w,
     Done ("  <item>
    <title>" +:+ Sax.escape (ev_title event) +:+ "</title>
    <link>" +:+ Sax.escape (ev_link event) +:+ "</link>
    <description>Registration Date: "
       +:+ Sax.escape (Sax.escape (ev_date event)) +:+ "</description>
    <pubDate>" +:+ Clock.rfc822 (clock w (ticks w)) +:+ "</pubDate>
    <guid isPermaLink=" +:+ dquote +:+ "true" +:+ dquote +:+ ">"
       +:+ Sax.escape (ev_link event) +:+ "</guid>
  </item>"))
  /\ (forall before after,
        Sax.escape (Sax.escape (before +:+ "&" +:+ after))
        = Sax.escape (Sax.escape before) +:+ "&amp;amp;"
          +:+ Sax.escape (Sax.escape after))
  /\ (free_of "&" (ev_date event) = true ->
      free_of "<" (ev_date event) = true ->
      free_of ">" (ev_date event) = true ->
      Sax.escape (Sax.escape (ev_date event)) = ev_date event).
Proof.
  split; [|split].
  - reflexivity.
  - intros before after. by rewrite !escape_app.
  - intros Ha Hl Hg. rewrite (escape_plain (ev_date event)) by done.
    by apply escape_plain.
Qed.

Section Witnesses.
Import Examples.

Lemma republished_feed_keeps_every_entry_witness :
  let w1 := fst (Scraper.update_rss_feed default_target [event_bio; event_lab]
                   fresh_world) in
  let w2 := fst (Scraper.update_rss_feed default_target [event_late] w1) in
  read_existing_items fresh_world = []
  /\ Scraper.update_rss_feed default_target [event_bio; event_lab] fresh_world
     = (w1, Done tt)
  /\ Scraper.update_rss_feed default_target [event_late] w1 = (w2, Done tt)
  /\ length (read_existing_items w2) = 3.
Proof.
  intros w1 w2.
  assert (H0 : read_existing_items fresh_world = []) by reflexivity.
  assert (H1 : Scraper.update_rss_feed default_target [event_bio; event_lab]
                 fresh_world = (w1, Done tt)) by (vm_compute; reflexivity).
  assert (H2 : Scraper.update_rss_feed default_target [event_late] w1
               = (w2, Done tt)) by (vm_compute; reflexivity).
  split; [exact H0|]. split; [exact H1|]. split; [exact H2|].
  exact (proj1 (proj2 (proj2 (republished_feed_keeps_every_entry default_target
                                fresh_world w1 w1 w2 [event_bio; event_lab]
                                [event_late] H0 H1 eq_refl H2)))).
Defined.

Lemma unclosed_feed_has_no_entries_witness :
  feed_file seen_world = Content "<rss></rss>"
  /\ contains "</item>" "<rss></rss>" = false
  /\ read_existing_items seen_world = [].
Proof.
  split; [reflexivity|]. split; [reflexivity|].
  exact (unclosed_feed_has_no_entries seen_world "<rss></rss>" eq_refl eq_refl).
Defined.


End Witnesses.

End FeedProps.

(* ===================================================================== *)
(** * More on the run: the store, the webhook, failures *)
(* ===================================================================== *)

Module RunMore.
Import PyStr Scraper RunProps FeedProps.

(** The payload that [post_to_webhook] sends for an event at time [now]. *)
Definition payload (event : Event) (now : Clock.DateTime)
  : string * string * string * string :=
  (ev_title event, ev_link event, ev_date event, Clock.isoformat_z now).

(** The payloads of a list of events at successive readings of the clock. *)
Fixpoint payloads_of (clock : nat -> Clock.DateTime) (start : nat)
    (events : list Event) : list (string * string * string * string) :=
  match events with
  | [] => []
  | event :: rest => payload event (clock start) :: payloads_of clock (S start) rest
  end.

Section WithConfig.

Variable bracketed_host_ok : string -> bool.
Variable TARGET_URL : string.
Variable WEBHOOK_URL : string.

Abbreviation extract_all := (Scraper.extract_all bracketed_host_ok TARGET_URL).
Abbreviation scrape_events := (Scraper.scrape_events bracketed_host_ok TARGET_URL).
Abbreviation process_new := (Scraper.process_new WEBHOOK_URL).
Abbreviation update_rss_feed := (Scraper.update_rss_feed TARGET_URL).
Abbreviation main := (Scraper.main bracketed_host_ok TARGET_URL WEBHOOK_URL).

(** What the webhook has received after the loop over the new events. *)
Definition posted_after (new_events : list Event) (w : World)
  : list (string * string * string * string) :=
  posted w
  ++ (if truthy WEBHOOK_URL
      then payloads_of (clock w) (ticks w) new_events else []).

Lemma post_to_webhook_spec event w :
  post_to_webhook WEBHOOK_URL event w
  = if truthy WEBHOOK_URL
    then (add_posted (payload event (clock w (ticks w))) (tick w), Done tt)
    else (w, Done tt).
Proof. unfold post_to_webhook. by destruct (truthy WEBHOOK_URL). Qed.

Lemma process_new_posted new_events seen_ids w :
  exists w',
    process_new new_events seen_ids w = (w', Done (seen_ids ∪ ids_of new_events))
    /\ same_files w w'
    /\ posted w' = posted_after new_events w
    /\ (truthy WEBHOOK_URL = false -> w' = w).
Proof.
  unfold posted_after. revert seen_ids w.
  induction new_events as [|event rest IH]; intros seen_ids w.
  - exists w. split; [|split; [apply same_files_refl|split; [|done]]].
    + unfold Scraper.process_new, ret, ids_of. simpl. do 2 f_equal. set_solver.
    + destruct (truthy WEBHOOK_URL); simpl; by rewrite app_nil_r.
  - cbn [Scraper.process_new]. unfold bind at 1. rewrite post_to_webhook_spec.
    assert (Hids : seen_ids ∪ {[ev_id event]} ∪ ids_of rest
                   = seen_ids ∪ ids_of (event :: rest)).
    { unfold ids_of. simpl. set_solver. }
    destruct (truthy WEBHOOK_URL) eqn:Hurl.
    + destruct (IH (seen_ids ∪ {[ev_id event]})
                  (add_posted (payload event (clock w (ticks w))) (tick w)))
        as (w' & Heq & Hsame & Hposted & _).
      exists w'. rewrite Heq, Hids. split; [done|]. split; [|split; [|done]].
      * eapply same_files_trans; [|exact Hsame].
        eapply same_files_trans; [apply same_files_tick | apply same_files_posted].
      * rewrite Hposted. simpl. by rewrite <- app_assoc.
    + destruct (IH (seen_ids ∪ {[ev_id event]}) w)
        as (w' & Heq & Hsame & Hposted & Hw').
      exists w'. rewrite Heq, Hids. split; [done|]. split; [done|].
      split; [|done]. by rewrite Hposted.
Qed.

(** The world that [save_seen_events] leaves when its write fails. *)
Definition store_write_failed (w : World) : World :=
  match state_failure w with
  | AtOpen => w
  | WhileWriting _ _ => set_state_file Unreadable w
  end.

Lemma save_seen_events_spec seen_ids w :
  save_seen_events seen_ids w
  = if state_writable w
    then (set_state_file (Content (sorted seen_ids)) w, Done tt)
    else (store_write_failed w, Exit 1).
Proof.
  unfold save_seen_events, store_write_failed.
  destruct (state_writable w); [done|]. by destruct (state_failure w).
Qed.

(** A failed write of the store touches nothing but the store, and what
    can be loaded afterwards is part of what could be loaded before. *)
Lemma store_write_failed_fields w :
  page (store_write_failed w) = page w
  /\ feed_file (store_write_failed w) = feed_file w
  /\ state_writable (store_write_failed w) = state_writable w
  /\ feed_writable (store_write_failed w) = feed_writable w
  /\ posted (store_write_failed w) = posted w
  /\ (state_file (store_write_failed w) = state_file w
      \/ state_file (store_write_failed w) = Unreadable).
Proof.
  unfold store_write_failed. destruct (state_failure w); repeat split; auto.
Qed.

(** A failed write of the feed touches nothing but the feed. *)
Lemma feed_write_failed_fields new_events w :
  page (feed_write_failed TARGET_URL new_events w) = page w
  /\ state_file (feed_write_failed TARGET_URL new_events w) = state_file w
  /\ state_writable (feed_write_failed TARGET_URL new_events w) = state_writable w
  /\ feed_writable (feed_write_failed TARGET_URL new_events w) = feed_writable w
  /\ posted (feed_write_failed TARGET_URL new_events w) = posted w.
Proof.
  unfold feed_write_failed.
  destruct (advance_fields (S (length new_events)) w)
    as (Hp & Hs & _ & Hsw & Hfw & _ & _ & Hposted & _).
  destruct (feed_failure w); cbn [page state_file state_writable feed_writable
                                   posted set_feed_file]; by repeat split.
Qed.

(** [main] on a page with new events, write by write. *)
Lemma main_with_new w link_elements :
  page w = Some link_elements ->
  let new_events := new_only (load_seen_events w) (extract_all link_elements) in
  new_events <> [] ->
  exists w1,
    same_files w w1
    /\ posted w1 = posted_after new_events w
    /\ (truthy WEBHOOK_URL = false -> w1 = w)
    /\ main w =
       let w2 := advance (S (length new_events)) w1 in
       if feed_writable w then
         let w3 := set_feed_file (Content (feed_text TARGET_URL new_events w1)) w2 in
         if state_writable w
         then (set_state_file
                 (Content (sorted (load_seen_events w ∪ ids_of new_events))) w3,
               Done tt)
         else (store_write_failed w3, Exit 1)
       else (feed_write_failed TARGET_URL new_events w1, Exit 1).
Proof.
  intros Hpage new_events Hne.
  destruct (process_new_posted new_events (load_seen_events w) w)
    as (w1 & Hproc & Hsame & Hposted & Hw1).
  exists w1. split; [done|]. split; [done|]. split; [done|].
  unfold Scraper.main, bind at 1, Scraper.scrape_events. rewrite Hpage.
  fold new_events. destruct new_events as [|e rest] eqn:Hn; [done|].
  unfold bind at 1. rewrite Hproc. unfold bind at 1.
  rewrite (update_rss_feed_some TARGET_URL (e :: rest) w1) by done.
  destruct Hsame as (_ & _ & _ & Hsw & Hfw & _). rewrite Hfw.
  destruct (feed_writable w); [|done].
  rewrite save_seen_events_spec.
  destruct (advance_fields (S (length (e :: rest))) w1) as (_ & _ & _ & Hsw' & _).
  cbn [state_writable set_feed_file]. rewrite Hsw', Hsw.
  by destruct (state_writable w).
Qed.

(** [main] keeps the page and the permissions. *)
Lemma main_frame w :
  page (fst (main w)) = page w
  /\ state_writable (fst (main w)) = state_writable w
  /\ feed_writable (fst (main w)) = feed_writable w.
Proof.
  destruct (page w) as [ls|] eqn:Hpage.
  - destruct (decide (new_only (load_seen_events w) (extract_all ls) = []))
      as [Hnil|Hne].
    + rewrite (main_nothing_new _ _ _ _ _ Hpage Hnil), save_seen_events_spec.
      destruct (store_write_failed_fields w) as (Hp & _ & Hsw & Hfw & _).
      destruct (state_writable w) eqn:Hs; cbn [fst]; [done|].
      by rewrite Hp, Hfw, Hsw.
    + destruct (main_with_new _ _ Hpage Hne)
        as (w1 & (Hp & _ & _ & Hsw & Hfw & _) & _ & _ & ->).
      destruct (advance_fields (S (length (new_only (load_seen_events w)
                                             (extract_all ls)))) w1)
        as (Hp' & _ & _ & Hsw' & Hfw' & _).
      destruct (feed_write_failed_fields
                  (new_only (load_seen_events w) (extract_all ls)) w1)
        as (Hp2 & _ & Hsw2 & Hfw2 & _).
      cbn zeta.
      destruct (store_write_failed_fields
                  (set_feed_file
                     (Content (feed_text TARGET_URL
                                 (new_only (load_seen_events w) (extract_all ls)) w1))
                     (advance (S (length (new_only (load_seen_events w)
                                            (extract_all ls)))) w1)))
        as (Hp3 & _ & Hsw3 & Hfw3 & _).
      destruct (feed_writable w) eqn:Hf, (state_writable w) eqn:Hs;
        cbn [fst page state_writable feed_writable set_state_file set_feed_file]
          in *;
        rewrite ?Hp3, ?Hsw3, ?Hfw3, ?Hp2, ?Hsw2, ?Hfw2, ?Hp', ?Hsw', ?Hfw',
          ?Hp, ?Hsw, ?Hfw; done.
  - unfold Scraper.main, bind, Scraper.scrape_events. by rewrite Hpage.
Qed.

Lemma new_only_empty_set events : new_only ∅ events = events.
Proof.
  unfold new_only. induction events as [|e rest IH]; [done|].
  rewrite filter_cons_True by set_solver. by rewrite IH.
Qed.

Lemma scrape_events_same w w' :
  page w' = page w -> state_file w' = state_file w ->
  snd (scrape_events w') = snd (scrape_events w).
Proof.
  intros Hp Hs. unfold Scraper.scrape_events, load_seen_events.
  rewrite Hp, Hs. by destruct (page w).
Qed.

(** X4. [save_seen_events] on a writable store writes the identities in
    increasing order, each once, and [load_seen_events] reads the same set
    back.  On a store that cannot be written it exits with status 1; the
    file is as it was when it is [open] that fails, and when the failure
    comes later, after [open] has emptied the file, nothing can be loaded
    from it: the next load gives the empty set. *)
Theorem saved_store_is_sorted_and_reloads (seen_ids : gset string) (w : World) :
  (state_writable w = true ->
   exists ids,
     save_seen_events seen_ids w = (set_state_file (Content ids) w, Done tt)
     /\ StronglySorted String.le ids
     /\ NoDup ids
     /\ (forall x, x ∈ ids <-> x ∈ seen_ids)
     /\ load_seen_events (set_state_file (Content ids) w) = seen_ids)
  /\ (state_writable w = false ->
      snd (save_seen_events seen_ids w) = Exit 1
      /\ (state_failure w = AtOpen -> fst (save_seen_events seen_ids w) = w)
      /\ (forall written torn,
            state_failure w = WhileWriting written torn ->
            fst (save_seen_events seen_ids w) = set_state_file Unreadable w
            /\ load_seen_events (fst (save_seen_events seen_ids w)) = ∅)).
Proof.
  unfold save_seen_events. split; intros ->.
  - exists (sorted seen_ids). split; [done|]. unfold sorted.
    split; [apply StronglySorted_merge_sort; apply _|].
    split; [rewrite merge_sort_Permutation; apply NoDup_elements|].
    split; [intros x; by rewrite merge_sort_Permutation, elem_of_elements|].
    apply load_after_save.
  - split; [by destruct (state_failure w)|]. split.
    + by intros ->.
    + by intros written torn ->.
Qed.

Lemma main_without_page w : page w = None -> main w = (w, Exit 1).
Proof.
  intros Hpage. unfold Scraper.main, bind, Scraper.scrape_events.
  by rewrite Hpage.
Qed.

(** X5. A run that could not fetch the page exits with status 1 and has
    posted nothing and written nothing: store, feed and webhook log are
    as they were. *)
Theorem failed_fetch_changes_nothing (w : World) :
  page w = None ->
  snd (main w) = Exit 1
  /\ state_file (fst (main w)) = state_file w
  /\ feed_file (fst (main w)) = feed_file w
  /\ posted (fst (main w)) = posted w.
Proof. intros Hpage. by rewrite (main_without_page w Hpage). Qed.

(** X6. With a missing or unreadable store every extracted event is new, also
    several events with one identity. *)
Theorem missing_store_makes_every_event_new
    (w : World) (link_elements : list LinkElement) :
  page w = Some link_elements ->
  state_file w = Absent \/ state_file w = Unreadable ->
  scrape_events w = (w, Done (extract_all link_elements, ∅)).
Proof.
  intros Hpage Hstore. unfold Scraper.scrape_events. rewrite Hpage.
  assert (Hload : load_seen_events w = ∅).
  { unfold load_seen_events. by destruct Hstore as [-> | ->]. }
  by rewrite Hload, new_only_empty_set.
Qed.

(** X7. Whatever becomes of the writes, a run on a fetched page has handed to
    the webhook one payload for each new event, in page order, with the
    title, the link and the date of the event and the time of the call in
    ISO format, with its microseconds when they are not zero, followed by
    [Z]; without a webhook address nothing is handed over. *)
Theorem webhook_gets_each_new_event_once
    (w : World) (link_elements : list LinkElement) :
  page w = Some link_elements ->
  posted (fst (main w))
  = posted w
    ++ (if truthy WEBHOOK_URL
        then payloads_of (clock w) (ticks w)
               (new_only (load_seen_events w) (extract_all link_elements))
        else []).
Proof.
  intros Hpage.
  destruct (decide (new_only (load_seen_events w) (extract_all link_elements) = []))
    as [Hnil|Hne].
  - rewrite (main_nothing_new _ _ _ _ _ Hpage Hnil), Hnil, save_seen_events_spec.
    destruct (store_write_failed_fields w) as (_ & _ & _ & _ & Hp & _).
    destruct (state_writable w), (truthy WEBHOOK_URL); cbn [fst];
      rewrite ?Hp; simpl; by rewrite app_nil_r.
  - destruct (main_with_new _ _ Hpage Hne) as (w1 & _ & Hposted & _ & ->).
    unfold posted_after in Hposted. rewrite <- Hposted. clear Hposted.
    set (new_events := new_only (load_seen_events w) (extract_all link_elements)).
    destruct (advance_fields (S (length new_events)) w1)
      as (_ & _ & _ & _ & _ & _ & _ & Hp & _).
    destruct (feed_write_failed_fields new_events w1) as (_ & _ & _ & _ & Hp2).
    destruct (store_write_failed_fields
                (set_feed_file (Content (feed_text TARGET_URL new_events w1))
                   (advance (S (length new_events)) w1)))
      as (_ & _ & _ & _ & Hp3 & _).
    cbn zeta.
    destruct (feed_writable w), (state_writable w); cbn [fst];
      rewrite ?Hp3, ?Hp2; cbn [posted set_state_file set_feed_file];
      by rewrite ?Hp.
Qed.

Lemma new_only_fewer_seen seen_ids seen_ids' events event :
  seen_ids' ⊆ seen_ids ->
  event ∈ new_only seen_ids events -> event ∈ new_only seen_ids' events.
Proof.
  unfold new_only. rewrite !list_elem_of_filter. set_solver.
Qed.

(** X8. A run that exits with an error exits with status 1.  It leaves the
    store as it was, unless it is the write of the store that failed after
    [open] had emptied the file: then nothing can be loaded from the
    store.  Either way the next run loads no identity that this run did
    not load, so every event that was new is new again on the next run on
    the same page. *)
Theorem failed_run_loses_no_new_event (w w' : World) (status : nat) :
  main w = (w', Exit status) ->
  status = 1
  /\ page w' = page w
  /\ (state_file w' = state_file w
      \/ state_writable w = false
         /\ (exists written torn, state_failure w = WhileWriting written torn)
         /\ state_file w' = Unreadable)
  /\ load_seen_events w' ⊆ load_seen_events w
  /\ (forall link_elements event,
        page w = Some link_elements ->
        event ∈ new_only (load_seen_events w) (extract_all link_elements) ->
        event ∈ new_only (load_seen_events w') (extract_all link_elements)).
Proof.
  intros Hmain.
  assert (Hpage' : page w' = page w).
  { pose proof (main_frame w) as (Hp & _). by rewrite Hmain in Hp. }
  assert (H : status = 1
              /\ (state_file w' = state_file w
                  \/ state_writable w = false
                     /\ (exists written torn,
                           state_failure w = WhileWriting written torn)
                     /\ state_file w' = Unreadable)).
  { destruct (page w) as [ls|] eqn:Hpage.
    - destruct (decide (new_only (load_seen_events w) (extract_all ls) = []))
        as [Hnil|Hne].
      + rewrite (main_nothing_new _ _ _ _ _ Hpage Hnil) in Hmain.
        rewrite save_seen_events_spec in Hmain. unfold store_write_failed in Hmain.
        destruct (state_writable w); [done|].
        destruct (state_failure w) as [|written torn]; injection Hmain as <- <-.
        * by split; [|left].
        * split; [done|]. right. by eauto.
      + destruct (main_with_new _ _ Hpage Hne)
          as (w1 & (_ & Hs & _ & _ & _ & _ & Hsf & _) & _ & _ & Heq).
        rewrite Heq in Hmain. clear Heq.
        set (new_events := new_only (load_seen_events w) (extract_all ls)) in *.
        destruct (advance_fields (S (length new_events)) w1)
          as (_ & Hs' & _ & _ & _ & _ & _ & _ & Hsf' & _).
        destruct (feed_write_failed_fields new_events w1) as (_ & Hs2 & _).
        cbn zeta in Hmain.
        destruct (feed_writable w).
        * destruct (state_writable w); [done|]. unfold store_write_failed in Hmain.
          cbn [state_failure set_feed_file] in Hmain. rewrite Hsf', Hsf in Hmain.
          destruct (state_failure w) as [|written torn]; injection Hmain as <- <-.
          -- split; [done|]. left. exact (eq_trans Hs' Hs).
          -- split; [done|]. right. by eauto.
        * injection Hmain as <- <-. split; [done|]. left. congruence.
    - rewrite (main_without_page w Hpage) in Hmain.
      injection Hmain as <- <-. by split; [|left]. }
  destruct H as (-> & Hstate).
  assert (Hload : load_seen_events w' ⊆ load_seen_events w).
  { unfold load_seen_events. destruct Hstate as [-> | (_ & _ & ->)]; set_solver. }
  split; [done|]. split; [done|]. split; [done|]. split; [done|].
  intros link_elements event _. by apply new_only_fewer_seen.
Qed.

(** X9. After a run that completed, a second run on the same page completes
    too and changes no file: the store it writes is the store it read, and
    the feed is not touched. *)
Theorem second_run_changes_no_file (w w1 : World) :
  main w = (w1, Done tt) ->
  exists w2,
    main w1 = (w2, Done tt)
    /\ state_file w2 = state_file w1
    /\ feed_file w2 = feed_file w1
    /\ posted w2 = posted w1.
Proof.
  intros Hmain.
  destruct (main_done _ _ _ _ _ Hmain) as (ls & Hp & Hp1 & Hsw & Hsf & _).
  cbn zeta in Hsf.
  pose proof (main_frame w) as (_ & Hsw1 & _). rewrite Hmain in Hsw1.
  cbn [fst] in Hsw1.
  assert (Hload : load_seen_events w1
                  = load_seen_events w
                    ∪ ids_of (new_only (load_seen_events w) (extract_all ls))).
  { unfold load_seen_events at 1. rewrite Hsf. apply load_saved. }
  assert (Hnew : new_only (load_seen_events w1) (extract_all ls) = []).
  { rewrite Hload. apply (new_only_after_add bracketed_host_ok TARGET_URL). }
  rewrite (main_nothing_new _ _ _ _ _ Hp1 Hnew), save_seen_events_spec.
  rewrite Hsw1, Hsw. eexists. split; [reflexivity|].
  cbn [state_file feed_file posted set_state_file].
  by rewrite Hload, Hsf.
Qed.

(** X14. After a run that completed, every event found on the page is in the
    store, whether it was new or not. *)
Theorem completed_run_marks_every_event_seen
    (w w' : World) (link_elements : list LinkElement) (event : Event) :
  main w = (w', Done tt) ->
  page w = Some link_elements ->
  event ∈ extract_all link_elements ->
  ev_id event ∈ load_seen_events w'.
Proof.
  intros Hmain Hpage Hin.
  destruct (main_done _ _ _ _ _ Hmain) as (ls & Hp & _ & _ & Hsf & _).
  cbn zeta in Hsf. assert (ls = link_elements) as -> by congruence.
  unfold load_seen_events at 1. rewrite Hsf, load_saved.
  destruct (decide (ev_id event ∈ load_seen_events w)); [set_solver|].
  apply elem_of_union_r. unfold ids_of. apply elem_of_list_to_set.
  apply list_elem_of_fmap. exists event. split; [done|].
  by apply list_elem_of_filter.
Qed.

(** X15. A run that completed on a feed without entries leaves a feed with
    one entry for each new event, the last event of the page first; each
    entry is the item that [generate_rss_item] renders for the event, from
    [<item>] on and with its line ends as a reader in text mode returns
    them. *)
Theorem completed_run_publishes_each_new_event
    (w w' : World) (link_elements : list LinkElement) :
  main w = (w', Done tt) ->
  page w = Some link_elements ->
  read_existing_items w = [] ->
  let new_events := new_only (load_seen_events w) (extract_all link_elements) in
  (exists start,
     read_existing_items w'
     = universal_newlines <$> entries_of (clock w) start (rev new_events))
  /\ length (read_existing_items w') = length new_events.
Proof.
  intros Hmain Hpage Hempty new_events.
  assert (H : exists start,
             read_existing_items w'
             = universal_newlines <$> entries_of (clock w) start (rev new_events)).
  { destruct (decide (new_events = [])) as [Hnil|Hne].
    - exists 0. rewrite Hnil.
      rewrite (main_nothing_new _ _ _ _ _ Hpage Hnil) in Hmain.
      rewrite save_seen_events_spec in Hmain.
      destruct (state_writable w); [|done]. injection Hmain as <-.
      exact Hempty.
    - destruct (main_with_new _ _ Hpage Hne)
        as (w1 & (_ & _ & Hfeed & _ & _ & Hclock & _) & _ & _ & Heq).
      rewrite Heq in Hmain. clear Heq. fold new_events in Hmain.
      destruct (feed_writable w); [|done].
      destruct (state_writable w); [|done]. injection Hmain as <-.
      exists (ticks w1). rewrite <- Hclock.
      assert (Hempty1 : read_existing_items w1 = []).
      { by rewrite (read_existing_items_feed w w1 Hfeed). }
      rewrite (feed_text_reads_back TARGET_URL new_events w1 [] _ Hempty1);
        [|constructor|done].
      by rewrite Hempty1, app_nil_r. }
  split; [exact H|]. destruct H as (start & ->).
  by rewrite length_fmap, entries_of_length, length_rev.
Qed.

End WithConfig.

Section Witnesses.
Import Examples.

Abbreviation run_main := (Scraper.main any_bracketed_host default_target no_webhook).
Abbreviation run_main_hook :=
  (Scraper.main any_bracketed_host default_target some_webhook).
Abbreviation run_scrape := (Scraper.scrape_events any_bracketed_host default_target).

Lemma saved_store_is_sorted_and_reloads_witness :
  state_writable fresh_world = true
  /\ (exists ids,
        save_seen_events {["https://x.org/b"; "https://x.org/a"]} fresh_world
        = (set_state_file (Content ids) fresh_world, Done tt)
        /\ StronglySorted String.le ids)
  /\ state_writable full_disk_world = false
  /\ save_seen_events {["https://x.org/b"]} full_disk_world
     = (set_state_file Unreadable full_disk_world, Exit 1).
Proof.
  split; [reflexivity|]. split.
  - destruct (proj1 (saved_store_is_sorted_and_reloads
                       {["https://x.org/b"; "https://x.org/a"]} fresh_world) eq_refl)
      as (ids & Hsave & Hsorted & _).
    exists ids. by split.
  - split; [reflexivity|].
    destruct (proj2 (saved_store_is_sorted_and_reloads
                       {["https://x.org/b"]} full_disk_world) eq_refl)
      as (Hexit & _ & Hcut).
    destruct (Hcut 0 false eq_refl) as (Hworld & _).
    rewrite <- Hworld, <- Hexit. by destruct (save_seen_events _ _).
Defined.

Lemma failed_fetch_changes_nothing_witness :
  page offline_world = None
  /\ snd (run_main offline_world) = Exit 1
  /\ state_file (fst (run_main offline_world))
     = Content ["https://www.eugloh.eu/reg"].
Proof.
  split; [reflexivity|].
  destruct (failed_fetch_changes_nothing any_bracketed_host default_target
              no_webhook offline_world eq_refl) as (Hexit & Hstate & _).
  split; [exact Hexit | exact Hstate].
Defined.

Lemma missing_store_makes_every_event_new_witness :
  page fresh_world = Some [link_full; link_query_error; link_bare]
  /\ state_file fresh_world = Absent
  /\ run_scrape fresh_world
     = (fresh_world,
        Done (Scraper.extract_all any_bracketed_host default_target
                [link_full; link_query_error; link_bare], ∅)).
Proof.
  split; [reflexivity|]. split; [reflexivity|].
  exact (missing_store_makes_every_event_new any_bracketed_host default_target
           fresh_world _ eq_refl (or_introl eq_refl)).
Defined.

Lemma webhook_gets_each_new_event_once_witness :
  page afternoon_world = Some [link_full; link_query_error; link_bare]
  /\ posted (fst (run_main_hook afternoon_world))
     = [("Intro Bio", "https://www.eugloh.eu/reg?sid=123#top", "2025-05-01",
         "2025-05-01T12:30:07.004512Z");
        ("Sign up", "https://www.eugloh.eu/courses/42?ref=home", "Date TBD",
         "2025-05-01T12:00:00Z")].
Proof.
  split; [reflexivity|].
  etransitivity;
    [exact (webhook_gets_each_new_event_once any_bracketed_host default_target
              some_webhook afternoon_world _ eq_refl)|].
  vm_compute. reflexivity.
Defined.

Lemma failed_run_loses_no_new_event_witness :
  run_main full_disk_world = (fst (run_main full_disk_world), Exit 1)
  /\ state_file full_disk_world = Content ["https://www.eugloh.eu/old"]
  /\ state_file (fst (run_main full_disk_world)) = Unreadable
  /\ load_seen_events (fst (run_main full_disk_world))
     ⊆ load_seen_events full_disk_world.
Proof.
  assert (H : run_main full_disk_world
              = (fst (run_main full_disk_world), Exit 1))
    by (vm_compute; reflexivity).
  destruct (failed_run_loses_no_new_event any_bracketed_host default_target
              no_webhook full_disk_world _ 1 H)
    as (_ & _ & _ & Hload & _).
  split; [exact H|]. split; [reflexivity|]. split; [|exact Hload].
  vm_compute. reflexivity.
Defined.

Lemma second_run_changes_no_file_witness :
  run_main fresh_world = (fst (run_main fresh_world), Done tt)
  /\ exists w2,
       run_main (fst (run_main fresh_world)) = (w2, Done tt)
       /\ state_file w2 = state_file (fst (run_main fresh_world))
       /\ feed_file w2 = feed_file (fst (run_main fresh_world)).
Proof.
  assert (H : run_main fresh_world = (fst (run_main fresh_world), Done tt))
    by (vm_compute; reflexivity).
  split; [exact H|].
  destruct (second_run_changes_no_file any_bracketed_host default_target
              no_webhook fresh_world _ H) as (w2 & Hrun & Hstate & Hfeed & _).
  exists w2. by repeat split.
Defined.

Lemma completed_run_marks_every_event_seen_witness :
  run_main seen_world = (fst (run_main seen_world), Done tt)
  /\ mkEvent "https://www.eugloh.eu/reg" "https://www.eugloh.eu/reg?sid=123#top"
             "Intro Bio" "2025-05-01"
     ∈ Scraper.extract_all any_bracketed_host default_target
         [link_full; link_query_error; link_bare]
  /\ "https://www.eugloh.eu/reg" ∈ load_seen_events (fst (run_main seen_world)).
Proof.
  assert (H : run_main seen_world = (fst (run_main seen_world), Done tt))
    by (vm_compute; reflexivity).
  assert (Hin : mkEvent "https://www.eugloh.eu/reg"
                  "https://www.eugloh.eu/reg?sid=123#top" "Intro Bio" "2025-05-01"
                ∈ Scraper.extract_all any_bracketed_host default_target
                    [link_full; link_query_error; link_bare]).
  { assert (Hall : Scraper.extract_all any_bracketed_host default_target
                     [link_full; link_query_error; link_bare]
                   = [mkEvent "https://www.eugloh.eu/reg"
                        "https://www.eugloh.eu/reg?sid=123#top" "Intro Bio"
                        "2025-05-01";
                      mkEvent "https://www.eugloh.eu/courses/42"
                        "https://www.eugloh.eu/courses/42?ref=home" "Sign up"
                        "Date TBD"]) by (vm_compute; reflexivity).
    rewrite Hall. by left. }
  split; [exact H|]. split; [exact Hin|].
  exact (completed_run_marks_every_event_seen any_bracketed_host default_target
           no_webhook seen_world _ _ _ H eq_refl Hin).
Defined.

Lemma completed_run_publishes_each_new_event_witness :
  run_main fresh_world = (fst (run_main fresh_world), Done tt)
  /\ read_existing_items fresh_world = []
  /\ length (read_existing_items (fst (run_main fresh_world)))
     = length (new_only (load_seen_events fresh_world)
                 (Scraper.extract_all any_bracketed_host default_target
                    [link_full; link_query_error; link_bare])).
Proof.
  assert (H : run_main fresh_world = (fst (run_main fresh_world), Done tt))
    by (vm_compute; reflexivity).
  split; [exact H|]. split; [reflexivity|].
  exact (proj2 (completed_run_publishes_each_new_event any_bracketed_host
                  default_target no_webhook fresh_world _ _ H eq_refl eq_refl)).
Defined.

End Witnesses.

End RunMore.

(* ===================================================================== *)
(** * More on the extraction: which container is read *)
(* ===================================================================== *)

Module ExtractMore.
Import PyStr Scraper.

Section WithConfig.

Variable bracketed_host_ok : string -> bool.

Abbreviation extract_event_data := (Scraper.extract_event_data bracketed_host_ok).

(** The search goes past the ancestors without a match and stops at the
    first one that has one. *)
Lemma first_match_past select near container far :
  Forall (fun ancestor => select ancestor = NoMatch) near ->
  first_match select (near ++ container :: far)
  = match select container with
    | SelectError => Raise
    | Match elem => Ok (Some elem)
    | NoMatch => first_match select far
    end.
Proof.
  induction 1 as [|ancestor rest Hhead _ IH]; [done|].
  simpl. by rewrite Hhead.
Qed.

(** What an extracted event holds, in terms of the two searches. *)
Lemma extracted_event_fields link_element base_url event :
  extract_event_data link_element base_url = Some event ->
  exists title_elem date_elem,
    first_match select_title (parents link_element) = Ok title_elem
    /\ first_match select_date (parents link_element) = Ok date_elem
    /\ ev_title event
       = str_or (match title_elem with Some e => text e | None => "" end)
                (str_or (link_text link_element) "Untitled Event")
    /\ ev_date event
       = str_or (match date_elem with
                 | Some e => str_or (default "" (attr_datetime e)) (text e)
                 | None => ""
                 end) "Date TBD".
Proof.
  unfold Scraper.extract_event_data, Scraper.extract_body.
  destruct (negb (truthy (default "" (href link_element)))); [done|].
  destruct (Scraper.normalize_url _ _ _) as [[stable_id full_link]|];
    cbn [exc_bind]; [|done].
  destruct (first_match select_title _) as [title_elem|]; cbn [exc_bind]; [|done].
  destruct (first_match select_date _) as [date_elem|]; cbn [exc_bind]; [|done].
  intros [= <-]. exists title_elem, date_elem. cbn [ev_title ev_date].
  unfold str_or. split; [done|]. split; [done|]. split.
  - by destruct (truthy (match title_elem with Some e => text e | None => "" end)).
  - by destruct (truthy (match date_elem with
                         | Some e => if truthy (default "" (attr_datetime e))
                                     then default "" (attr_datetime e) else text e
                         | None => ""
                         end)).
Qed.

Lemma first_match_nothing select ancestors :
  Forall (fun ancestor => select ancestor = NoMatch) ancestors ->
  first_match select ancestors = Ok None.
Proof.
  induction 1 as [|ancestor rest Hhead _ IH]; simpl; [done|]. by rewrite Hhead.
Qed.

(** X10. The title and the date of an event are found independently of
    each other.  The title comes from the nearest ancestor in which the
    title query finds an element, whatever the ancestors farther out hold
    and wherever the date is found: it is the text of that element, or the
    link text when it is empty, or "Untitled Event".  The date comes from
    the nearest ancestor in which the date query finds an element: it is
    the [datetime] attribute of that element, or its text when the
    attribute is missing or empty, or "Date TBD".  A field for which no
    ancestor has an element gets its fallback. *)
Theorem nearest_container_gives_title_and_date
    (link_element : LinkElement) (base_url : string) (event : Event) :
  extract_event_data link_element base_url = Some event ->
  (forall near container far elem,
     parents link_element = near ++ container :: far ->
     Forall (fun ancestor => select_title ancestor = NoMatch) near ->
     select_title container = Match elem ->
     ev_title event
     = str_or (text elem) (str_or (link_text link_element) "Untitled Event"))
  /\ (forall near container far elem,
        parents link_element = near ++ container :: far ->
        Forall (fun ancestor => select_date ancestor = NoMatch) near ->
        select_date container = Match elem ->
        ev_date event
        = str_or (str_or (default "" (attr_datetime elem)) (text elem)) "Date TBD")
  /\ (Forall (fun ancestor => select_title ancestor = NoMatch) (parents link_element) ->
      ev_title event = str_or (link_text link_element) "Untitled Event")
  /\ (Forall (fun ancestor => select_date ancestor = NoMatch) (parents link_element) ->
      ev_date event = "Date TBD").
Proof.
  intros Hsome.
  destruct (extracted_event_fields _ _ _ Hsome)
    as (title_elem & date_elem & Ht & Hd & -> & ->).
  split; [|split; [|split]].
  - intros near container far elem Hparents Hnear Hmatch.
    rewrite Hparents, (first_match_past _ _ _ _ Hnear), Hmatch in Ht.
    by injection Ht as <-.
  - intros near container far elem Hparents Hnear Hmatch.
    rewrite Hparents, (first_match_past _ _ _ _ Hnear), Hmatch in Hd.
    by injection Hd as <-.
  - intros Hnone. rewrite (first_match_nothing _ _ Hnone) in Ht.
    by injection Ht as <-.
  - intros Hnone. rewrite (first_match_nothing _ _ Hnone) in Hd.
    by injection Hd as <-.
Qed.

End WithConfig.

Section Witnesses.
Import Examples.

Lemma nearest_container_gives_title_and_date_witness :
  Scraper.extract_event_data any_bracketed_host link_split default_target
  = Some (mkEvent "https://www.eugloh.eu/courses/7"
                  "https://www.eugloh.eu/courses/7"
                  "Field Course" "June 3")
  /\ ev_title (mkEvent "https://www.eugloh.eu/courses/7"
                       "https://www.eugloh.eu/courses/7"
                       "Field Course" "June 3")
     = str_or "Field Course" (str_or "Join" "Untitled Event")
  /\ ev_date (mkEvent "https://www.eugloh.eu/courses/7"
                      "https://www.eugloh.eu/courses/7"
                      "Field Course" "June 3")
     = str_or (str_or "" "June 3") "Date TBD".
Proof.
  assert (H : Scraper.extract_event_data any_bracketed_host link_split
                default_target
              = Some (mkEvent "https://www.eugloh.eu/courses/7"
                              "https://www.eugloh.eu/courses/7"
                              "Field Course" "June 3"))
    by (vm_compute; reflexivity).
  split; [exact H|].
  destruct (nearest_container_gives_title_and_date any_bracketed_host
              link_split default_target _ H) as (Htitle & Hdate & _ & _).
  split.
  - refine (Htitle [mkAncestor NoMatch (Match (mkTag None "June 3"))]
              _ [] (mkTag None "Field Course") eq_refl _ eq_refl).
    by repeat constructor.
  - refine (Hdate [] _ [_] (mkTag None "June 3") eq_refl _ eq_refl).
    by constructor.
Defined.

End Witnesses.

End ExtractMore.

(* ===================================================================== *)
(** * Properties of the identity normaliser *)
(* ===================================================================== *)

Module UrlProps.
Import PyStr UrlParse StrProps.

(** The characters that start a query or a fragment. *)
Definition is_qf (c : ascii) : bool := Ascii.eqb c "?" || Ascii.eqb c "#".

(** A URL up to its first [?] or [#]: what is left when the query string
    and the fragment are taken away. *)
Fixpoint stem (s : string) : string :=
  match s with
  | EmptyString => ""
  | String c r => if is_qf c then "" else String c (stem r)
  end.

(** The rest of the URL, from its first [?] or [#] on. *)
Fixpoint qf_part (s : string) : string :=
  match s with
  | EmptyString => ""
  | String c r => if is_qf c then s else qf_part r
  end.

(** Neither [?] nor [#] occurs in [s]. *)
Definition clean (s : string) : bool := all_chars (fun c => negb (is_qf c)) s.

(** [t] is empty or starts with [?] or [#]. *)
Definition qf_start (t : string) : bool :=
  match t with
  | EmptyString => true
  | String c _ => is_qf c
  end.

(** [s] up to the first [c]. *)
Fixpoint before (c : ascii) (s : string) : string :=
  match s with
  | EmptyString => ""
  | String d r => if Ascii.eqb d c then "" else String d (before c r)
  end.

(** The number of characters before the first of [/], [?], [#]. *)
Fixpoint host_len (s : string) : nat :=
  match s with
  | EmptyString => 0
  | String c r =>
      if Ascii.eqb c "/" || is_qf c then 0 else S (host_len r)
  end.

(** ** Stem and rest *)

Lemma stem_qf_part s : stem s +:+ qf_part s = s.
Proof.
  induction s as [|c r IH]; [done|]. cbn [stem qf_part].
  destruct (is_qf c); [done|]. rewrite append_cons. by f_equal.
Qed.

Lemma stem_clean s : clean (stem s) = true.
Proof.
  unfold clean. induction s as [|c r IH]; [done|]. cbn [stem].
  destruct (is_qf c) eqn:E; [done|]. cbn [all_chars]. by rewrite E, IH.
Qed.

Lemma qf_part_start s : qf_start (qf_part s) = true.
Proof.
  induction s as [|c r IH]; [done|]. cbn [qf_part].
  by destruct (is_qf c) eqn:E.
Qed.

Lemma stem_app p t : clean p = true -> qf_start t = true -> stem (p +:+ t) = p.
Proof.
  unfold clean. intros Hp Ht. induction p as [|c r IH].
  - destruct t as [|q t]; [done|]. cbn [qf_start] in Ht.
    change ("" +:+ String q t) with (String q t). cbn [stem]. by rewrite Ht.
  - cbn [all_chars] in Hp. apply andb_true_iff in Hp as [Hc Hr].
    rewrite append_cons. cbn [stem]. apply negb_true_iff in Hc. rewrite Hc.
    f_equal. by apply IH.
Qed.

Lemma clean_app a b : clean (a +:+ b) = clean a && clean b.
Proof.
  unfold clean. induction a as [|c r IH]; [done|]. rewrite append_cons.
  cbn [all_chars]. by rewrite IH, andb_assoc.
Qed.

Lemma clean_take n s : clean s = true -> clean (take n s) = true.
Proof.
  unfold clean. revert n. induction s as [|c r IH]; intros [|n] H; try done.
  cbn [take all_chars] in *. apply andb_true_iff in H as [-> H]. by apply IH.
Qed.

Lemma clean_drop n s : clean s = true -> clean (drop n s) = true.
Proof.
  unfold clean. revert n. induction s as [|c r IH]; intros [|n] H; try done.
  cbn [drop all_chars] in *. apply andb_true_iff in H as [_ H]. by apply IH.
Qed.

(** ** The stages of [urlsplit] on a stem followed by a query or fragment *)

Lemma lstrip_c0_app p t :
  qf_start t = true -> lstrip_c0 (p +:+ t) = lstrip_c0 p +:+ t.
Proof.
  intros Ht. induction p as [|c r IH].
  - destruct t as [|q t]; [done|]. cbn [qf_start] in Ht.
    change ("" +:+ String q t) with (String q t). cbn [lstrip_c0].
    unfold is_qf in Ht. apply orb_true_iff in Ht as [Hq|Hq];
      apply Ascii.eqb_eq in Hq; by subst q.
  - rewrite append_cons. cbn [lstrip_c0].
    destruct (is_c0_or_space c); [exact IH | done].
Qed.

Lemma clean_lstrip_c0 p : clean p = true -> clean (lstrip_c0 p) = true.
Proof.
  unfold clean. induction p as [|c r IH]; [done|]. cbn [lstrip_c0].
  destruct (is_c0_or_space c); [|done].
  cbn [all_chars]. intros [_ H]%andb_true_iff. by apply IH.
Qed.

Lemma remove_char_app d a b :
  remove_char d (a +:+ b) = remove_char d a +:+ remove_char d b.
Proof.
  induction a as [|c r IH]; [done|]. rewrite append_cons. cbn [remove_char].
  destruct (Ascii.eqb c d); [done|]. rewrite append_cons. by f_equal.
Qed.

Lemma clean_remove_char d p : clean p = true -> clean (remove_char d p) = true.
Proof.
  unfold clean. induction p as [|c r IH]; [done|]. cbn [remove_char all_chars].
  intros [Hc H]%andb_true_iff. destruct (Ascii.eqb c d); [by apply IH|].
  cbn [all_chars]. by rewrite Hc, IH.
Qed.

Lemma qf_start_remove_char d t :
  is_qf d = false -> qf_start t = true -> qf_start (remove_char d t) = true.
Proof.
  intros Hd Ht. destruct t as [|q t]; [done|]. cbn [qf_start] in Ht.
  cbn [remove_char]. destruct (Ascii.eqb q d) eqn:E; [|done].
  apply Ascii.eqb_eq in E. subst q. congruence.
Qed.

Lemma remove_unsafe_app a b :
  remove_unsafe (a +:+ b) = remove_unsafe a +:+ remove_unsafe b.
Proof. unfold remove_unsafe. by rewrite !remove_char_app. Qed.

Lemma clean_remove_unsafe p : clean p = true -> clean (remove_unsafe p) = true.
Proof. intros H. unfold remove_unsafe. by do 3 apply clean_remove_char. Qed.

Lemma qf_start_remove_unsafe t :
  qf_start t = true -> qf_start (remove_unsafe t) = true.
Proof.
  intros H. unfold remove_unsafe. by do 3 (apply qf_start_remove_char; [done|]).
Qed.

(** The path that [urlsplit] keeps is the stem of what follows the scheme
    and the netloc. *)
Lemma split_once_before c s :
  (if in_char c s then split_once c s else (s, "")).1 = before c s.
Proof.
  unfold in_char, split_once.
  induction s as [|d r IH]; [done|]. cbn [find_char before].
  destruct (Ascii.eqb d c); [done|].
  destruct (find_char c r) as [i|]; simpl in *; by f_equal.
Qed.

Lemma before_qf_stem s : before "?" (before "#" s) = stem s.
Proof.
  induction s as [|d r IH]; [done|]. cbn [before stem]. unfold is_qf.
  destruct (Ascii.eqb d "#") eqn:Eh.
  - by rewrite orb_true_r.
  - rewrite orb_false_r. cbn [before]. destruct (Ascii.eqb d "?"); [done|].
    by f_equal.
Qed.

(** ** Indices in a concatenation *)

Lemma find_char_app c a b :
  find_char c (a +:+ b)
  = match find_char c a with
    | Some i => Some i
    | None => (fun i => String.length a + i) <$> find_char c b
    end.
Proof.
  induction a as [|d r IH].
  - change ("" +:+ b) with b. simpl. by destruct (find_char c b).
  - rewrite append_cons. cbn [find_char]. destruct (Ascii.eqb d c); [done|].
    rewrite IH. destruct (find_char c r); [done|].
    by destruct (find_char c b).
Qed.

Lemma find_char_lt c a i : find_char c a = Some i -> i < String.length a.
Proof.
  revert i. induction a as [|d r IH]; intros i; [done|]. cbn [find_char].
  destruct (Ascii.eqb d c).
  - intros [= <-]. simpl. lia.
  - destruct (find_char c r) as [j|]; [|done]. intros [= <-].
    specialize (IH j eq_refl). simpl. lia.
Qed.

Lemma find_char_none_free c s :
  find_char c s = None <-> free_of c s = true.
Proof.
  unfold free_of. induction s as [|d r IH]; [done|]. cbn [find_char all_chars].
  destruct (Ascii.eqb d c); simpl; [done|].
  rewrite <- IH. by destruct (find_char c r).
Qed.

Lemma take_app_le n a b :
  n <= String.length a -> take n (a +:+ b) = take n a.
Proof.
  revert n. induction a as [|d r IH]; intros n Hn.
  - simpl in Hn. assert (n = 0) as -> by lia. by destruct b.
  - rewrite append_cons. destruct n as [|n]; [done|]. cbn [take]. f_equal.
    apply IH. simpl in Hn. lia.
Qed.

Lemma drop_app_le n a b :
  n <= String.length a -> drop n (a +:+ b) = drop n a +:+ b.
Proof.
  revert n. induction a as [|d r IH]; intros n Hn.
  - simpl in Hn. assert (n = 0) as -> by lia. by destruct b.
  - rewrite append_cons. destruct n as [|n]; [done|]. cbn [drop].
    apply IH. simpl in Hn. lia.
Qed.

Lemma take_app_add n a b :
  take (String.length a + n) (a +:+ b) = a +:+ take n b.
Proof.
  induction a as [|d r IH]; [done|]. rewrite !append_cons. simpl. by f_equal.
Qed.

Lemma all_chars_app f a b :
  all_chars f (a +:+ b) = all_chars f a && all_chars f b.
Proof.
  induction a as [|d r IH]; [done|]. rewrite append_cons. cbn [all_chars].
  by rewrite IH, andb_assoc.
Qed.

(** ** The scheme *)

(** The part of [urlsplit] that takes a scheme off the front of the URL:
    the scheme found, or the default, and what follows it. *)
Definition detect (scheme url : string) : string * string :=
  match find_char ":" url, url with
  | Some (S i), String c0 _ =>
      if is_ascii_alpha c0 && all_chars is_scheme_char (take (S i) url)
      then (lower (take (S i) url), drop (S (S i)) url)
      else (scheme, url)
  | _, _ => (scheme, url)
  end.

Lemma qf_not_scheme_char q : is_qf q = true -> is_scheme_char q = false.
Proof.
  unfold is_qf. intros [H|H]%orb_true_iff; apply Ascii.eqb_eq in H; by subst q.
Qed.

Lemma qf_not_colon q : is_qf q = true -> Ascii.eqb q ":" = false.
Proof.
  unfold is_qf. intros [H|H]%orb_true_iff; apply Ascii.eqb_eq in H; by subst q.
Qed.

Lemma detect_app scheme p t :
  qf_start t = true ->
  detect scheme (p +:+ t) = ((detect scheme p).1, (detect scheme p).2 +:+ t).
Proof.
  intros Ht. unfold detect. rewrite find_char_app.
  destruct (find_char ":" p) as [k|] eqn:Hk.
  - pose proof (find_char_lt _ _ _ Hk) as Hlt.
    destruct k as [|i]; [done|].
    destruct p as [|c0 p']; [done|]. rewrite append_cons.
    rewrite <- (append_cons c0 p' t).
    rewrite (take_app_le (S i)) by lia.
    rewrite (drop_app_le (S (S i))) by lia.
    by destruct (is_ascii_alpha c0 && all_chars is_scheme_char (take (S i) (String c0 p'))).
  - cbn [fst snd].
    destruct t as [|q t']; [done|].
    cbn [qf_start] in Ht. cbn [find_char]. rewrite (qf_not_colon q Ht).
    destruct (find_char ":" t') as [j|]; [|done]. cbn [fmap option_fmap option_map].
    replace (String.length p + S j) with (S (String.length p + j)) by lia.
    destruct (p +:+ String q t') as [|c0 u] eqn:Hu; [done|]. rewrite <- Hu.
    replace (S (String.length p + j)) with (String.length p + S j) by lia.
    rewrite take_app_add, all_chars_app. cbn [take all_chars].
    rewrite (qf_not_scheme_char q Ht). simpl.
    by rewrite andb_false_r, andb_false_r.
Qed.

Lemma detect_clean scheme p :
  clean p = true -> clean (detect scheme p).2 = true.
Proof.
  intros Hp. unfold detect.
  destruct (find_char ":" p) as [[|i]|]; destruct p as [|c0 p']; try done.
  destruct (is_ascii_alpha c0 && all_chars is_scheme_char (take (S i) (String c0 p')));
    [by apply clean_drop | done].
Qed.

(** ** The netloc *)

Lemma host_len_min s :
  fold_left
    (fun delim c =>
       match (fun i => 2 + i) <$> find_char c s with
       | Some wdelim => Nat.min delim wdelim
       | None => delim
       end)
    ["/"; "?"; "#"]%char (2 + String.length s)
  = 2 + host_len s.
Proof.
  cbn [fold_left]. induction s as [|c r IH]; [done|].
  cbn [find_char host_len String.length]. unfold is_qf.
  destruct (Ascii.eqb c "/"), (Ascii.eqb c "?"), (Ascii.eqb c "#");
    destruct (find_char "/" r), (find_char "?" r), (find_char "#" r);
    simpl in *; lia.
Qed.

Lemma splitnetloc_host s :
  splitnetloc (String "/" (String "/" s)) 2
  = (take (host_len s) s, drop (host_len s) s).
Proof.
  unfold splitnetloc, find_char_from, slice. cbn [drop String.length].
  change (S (S (String.length s))) with (2 + String.length s).
  rewrite (host_len_min s).
  replace (2 + host_len s - 2) with (host_len s) by lia. reflexivity.
Qed.

Lemma host_len_le s : host_len s <= String.length s.
Proof.
  induction s as [|c r IH]; [done|]. cbn [host_len].
  destruct (Ascii.eqb c "/" || is_qf c); simpl; lia.
Qed.

Lemma host_len_app p t :
  qf_start t = true -> host_len (p +:+ t) = host_len p.
Proof.
  intros Ht. induction p as [|c r IH].
  - destruct t as [|q t']; [done|]. cbn [qf_start] in Ht.
    change ("" +:+ String q t') with (String q t'). cbn [host_len].
    by rewrite Ht, orb_true_r.
  - rewrite append_cons. cbn [host_len].
    destruct (Ascii.eqb c "/" || is_qf c); [done | by rewrite IH].
Qed.

Lemma host_clean s : clean (take (host_len s) s) = true.
Proof.
  unfold clean. induction s as [|c r IH]; [done|]. cbn [host_len].
  destruct (Ascii.eqb c "/" || is_qf c) eqn:E; [done|].
  apply orb_false_iff in E as [_ E]. cbn [take all_chars]. by rewrite E, IH.
Qed.

Lemma prefix_slashes s :
  String.prefix "//" s = true -> exists r, s = String "/" (String "/" r).
Proof.
  destruct s as [|a [|b r]]; try done.
  - rewrite prefix_cons. by destruct (Ascii.eqb "/" a).
  - rewrite !prefix_cons.
    destruct (Ascii.eqb "/" a) eqn:Ea; [|done].
    destruct (Ascii.eqb "/" b) eqn:Eb; [|done].
    apply Ascii.eqb_eq in Ea, Eb. subst. by exists r.
Qed.

Lemma prefix_slashes_app p t :
  qf_start t = true -> String.prefix "//" (p +:+ t) = String.prefix "//" p.
Proof.
  intros Ht. destruct p as [|a [|b r]].
  - destruct t as [|q t']; [done|]. cbn [qf_start] in Ht.
    change ("" +:+ String q t') with (String q t'). rewrite prefix_cons.
    destruct (Ascii.eqb "/" q) eqn:E; [|done].
    apply Ascii.eqb_eq in E. by subst q.
  - rewrite !append_cons. change ("" +:+ t) with t. rewrite !prefix_cons.
    destruct (Ascii.eqb "/" a); [|done]. simpl.
    destruct t as [|q t']; [done|]. cbn [qf_start] in Ht. rewrite prefix_cons.
    destruct (Ascii.eqb "/" q) eqn:E; [|done].
    apply Ascii.eqb_eq in E. by subst q.
  - rewrite !append_cons. rewrite !prefix_cons. by destruct (r +:+ t), r.
Qed.

(** ** [urlsplit] in stages *)

(** The end of [urlsplit]: fragment, query, and the result. *)
Definition split_rest (scheme netloc url : string) : option SplitResult :=
  let '(url, fragment) :=
    if in_char "#" url then split_once "#" url else (url, "") in
  let '(url, query) :=
    if in_char "?" url then split_once "?" url else (url, "") in
  if checknetloc netloc
  then Some (mkSplitResult scheme netloc url query fragment)
  else None.

(** What decides whether a netloc is accepted. *)
Definition netloc_ok (bracketed_host_ok : string -> bool) (netloc : string) : bool :=
  negb ((in_char "[" netloc && negb (in_char "]" netloc))
        || (in_char "]" netloc && negb (in_char "[" netloc)))
  && negb (in_char "[" netloc && in_char "]" netloc
           && negb (check_bracketed_netloc bracketed_host_ok netloc)).

(** The scheme, netloc and path of a result. *)
Definition stem_parts (r : SplitResult) : string * string * string :=
  (s_scheme r, s_netloc r, s_path r).

Lemma split_rest_parts scheme netloc url :
  stem_parts <$> split_rest scheme netloc url = Some (scheme, netloc, stem url).
Proof.
  unfold split_rest.
  pose proof (split_once_before "#" url) as Hf.
  destruct (if in_char "#" url then split_once "#" url else (url, ""))
    as [u fragment]. cbn [fst] in Hf.
  pose proof (split_once_before "?" u) as Hq.
  destruct (if in_char "?" u then split_once "?" u else (u, ""))
    as [u' query]. cbn [fst] in Hq.
  unfold checknetloc. cbn. unfold stem_parts. cbn.
  by rewrite Hq, Hf, before_qf_stem.
Qed.

Lemma stem_of_clean p : clean p = true -> stem p = p.
Proof.
  intros Hp. rewrite <- (append_nil_r p) at 1. by apply stem_app.
Qed.

Section Stages.

Variable bracketed_host_ok : string -> bool.

(** [urlsplit] once the scheme is off: the netloc, then the rest. *)
Definition after_scheme (scheme url : string) : option SplitResult :=
  if String.prefix "//" url then
    let '(netloc, url) := splitnetloc url 2 in
    if (in_char "[" netloc && negb (in_char "]" netloc))
       || (in_char "]" netloc && negb (in_char "[" netloc))
    then None
    else if in_char "[" netloc && in_char "]" netloc
            && negb (check_bracketed_netloc bracketed_host_ok netloc)
    then None
    else split_rest scheme netloc url
  else split_rest scheme "" url.

Lemma urlsplit_stages url scheme :
  urlsplit bracketed_host_ok url scheme
  = after_scheme
      (detect (remove_unsafe (strip_c0 scheme)) (remove_unsafe (lstrip_c0 url))).1
      (detect (remove_unsafe (strip_c0 scheme)) (remove_unsafe (lstrip_c0 url))).2.
Proof.
  unfold urlsplit, detect.
  destruct (match find_char ":" (remove_unsafe (lstrip_c0 url)) with
            | Some (S i) => _ | _ => _ end) as [scheme' url'].
  reflexivity.
Qed.

(** Scheme, netloc and path as [urlsplit] finds them after the scheme. *)
Lemma after_scheme_parts scheme url :
  stem_parts <$> after_scheme scheme url
  = if String.prefix "//" url then
      let rest := drop 2 url in
      let netloc := take (host_len rest) rest in
      if netloc_ok bracketed_host_ok netloc
      then Some (scheme, netloc, stem (drop (host_len rest) rest))
      else None
    else Some (scheme, "", stem url).
Proof.
  unfold after_scheme.
  destruct (String.prefix "//" url) eqn:Hpre; [|apply split_rest_parts].
  apply prefix_slashes in Hpre as [r ->]. rewrite splitnetloc_host.
  cbn [drop]. cbv zeta. unfold netloc_ok.
  destruct ((in_char "[" (take (host_len r) r)
             && negb (in_char "]" (take (host_len r) r)))
            || (in_char "]" (take (host_len r) r)
                && negb (in_char "[" (take (host_len r) r)))); [done|].
  destruct (in_char "[" (take (host_len r) r) && in_char "]" (take (host_len r) r)
            && negb (check_bracketed_netloc bracketed_host_ok (take (host_len r) r)));
    [done|].
  apply split_rest_parts.
Qed.

Lemma after_scheme_app scheme r t :
  clean r = true -> qf_start t = true ->
  stem_parts <$> after_scheme scheme (r +:+ t)
  = stem_parts <$> after_scheme scheme r.
Proof.
  intros Hr Ht. rewrite !after_scheme_parts, (prefix_slashes_app _ _ Ht).
  destruct (String.prefix "//" r) eqn:Hpre.
  - apply prefix_slashes in Hpre as [r' ->]. rewrite !append_cons.
    cbn [drop]. cbv zeta.
    assert (Hr' : clean r' = true).
    { unfold clean in *. cbn [all_chars] in Hr.
      by apply andb_true_iff in Hr as [_ [_ ?]%andb_true_iff]. }
    rewrite (host_len_app _ _ Ht).
    rewrite (take_app_le _ _ _ (host_len_le r')).
    rewrite (drop_app_le _ _ _ (host_len_le r')).
    rewrite (stem_app _ _ (clean_drop _ _ Hr') Ht).
    by rewrite (stem_of_clean _ (clean_drop _ _ Hr')).
  - by rewrite (stem_app _ _ Hr Ht), (stem_of_clean _ Hr).
Qed.

(** The scheme, the netloc and the path that [urlsplit] finds, and whether
    it raises, are decided by the stem of the URL. *)
Lemma urlsplit_stem url scheme :
  stem_parts <$> urlsplit bracketed_host_ok url scheme
  = stem_parts <$> urlsplit bracketed_host_ok (stem url) scheme.
Proof.
  rewrite !urlsplit_stages.
  rewrite <- (stem_qf_part url) at 1 2.
  pose proof (stem_clean url) as Hp. pose proof (qf_part_start url) as Ht.
  rewrite (lstrip_c0_app _ _ Ht), remove_unsafe_app.
  rewrite (detect_app _ _ _ (qf_start_remove_unsafe _ Ht)). cbn [fst snd].
  apply after_scheme_app.
  - by apply detect_clean, clean_remove_unsafe, clean_lstrip_c0.
  - by apply qf_start_remove_unsafe.
Qed.

(** ** The identity *)

(** The path that [urlparse] keeps: without the parameters of the last
    segment when the scheme has them. *)
Definition path_of (scheme url : string) : string :=
  (if in_list scheme uses_params && in_char ";" url
   then splitparams url else (url, "")).1.

(** The identity built from scheme, netloc and path. *)
Definition identity_from (parts : string * string * string) : string :=
  let '(scheme, netloc, url) := parts in
  urlunparse scheme netloc (path_of scheme url) "" "" "".

(** The identity that [normalize_url] gives to an absolute URL. *)
Definition identity_of (absolute_url : string) : option string :=
  match urlparse bracketed_host_ok absolute_url "" with
  | Some parsed =>
      Some (urlunparse (scheme parsed) (netloc parsed) (path parsed) "" "" "")
  | None => None
  end.

Lemma normalize_url_identity url base_url :
  Scraper.normalize_url bracketed_host_ok url base_url
  = match urljoin bracketed_host_ok base_url url with
    | Some absolute_url =>
        (fun identity => (identity, absolute_url)) <$> identity_of absolute_url
    | None => None
    end.
Proof.
  unfold Scraper.normalize_url, identity_of.
  destruct (urljoin bracketed_host_ok base_url url) as [a|]; [|done].
  by destruct (urlparse bracketed_host_ok a "").
Qed.

Lemma identity_of_parts absolute_url :
  identity_of absolute_url
  = identity_from <$> (stem_parts <$> urlsplit bracketed_host_ok absolute_url "").
Proof.
  unfold identity_of, urlparse.
  destruct (urlsplit bracketed_host_ok absolute_url "") as [r|]; [|done].
  unfold identity_from, stem_parts, path_of. cbn [fmap option_fmap option_map].
  by destruct (if in_list (s_scheme r) uses_params && in_char ";" (s_path r)
               then splitparams (s_path r) else (s_path r, "")).
Qed.

Lemma identity_of_stem absolute_url :
  identity_of absolute_url = identity_of (stem absolute_url).
Proof. by rewrite !identity_of_parts, urlsplit_stem. Qed.

(** *** No query and no fragment in the identity *)

Lemma scheme_char_lower_clean c :
  is_scheme_char c = true -> is_qf (lower_char c) = false.
Proof.
  destruct c as [[] [] [] [] [] [] [] []]; vm_compute; congruence.
Qed.

Lemma clean_lower s : all_chars is_scheme_char s = true -> clean (lower s) = true.
Proof.
  unfold clean. induction s as [|c r IH]; [done|]. cbn [all_chars lower].
  intros [Hc Hr]%andb_true_iff. by rewrite (scheme_char_lower_clean c Hc), IH.
Qed.

Lemma detect_scheme_clean scheme url :
  clean scheme = true -> clean (detect scheme url).1 = true.
Proof.
  intros Hs. unfold detect.
  destruct (find_char ":" url) as [[|i]|]; destruct url as [|c0 u];
    try exact Hs.
  destruct (is_ascii_alpha c0); [|exact Hs]. cbn [andb].
  destruct (all_chars is_scheme_char (take (S i) (String c0 u))) eqn:E;
    [|exact Hs].
  by apply clean_lower.
Qed.

Lemma clean_path_of scheme url : clean url = true -> clean (path_of scheme url) = true.
Proof.
  intros Hu. unfold path_of, splitparams.
  destruct (in_list scheme uses_params && in_char ";" url); [|done].
  destruct (in_char "/" url).
  - destruct (find_char_from ";" _ url); [by apply clean_take | done].
  - destruct (find_char ";" url); by apply clean_take.
Qed.

Lemma clean_identity_from scheme netloc url :
  clean scheme = true -> clean netloc = true -> clean url = true ->
  clean (identity_from (scheme, netloc, url)) = true.
Proof.
  intros Hs Hn Hu. unfold identity_from, urlunparse, urlunsplit. cbn [truthy].
  pose proof (clean_path_of scheme url Hu) as Hp.
  destruct (truthy netloc
            || truthy scheme && in_list scheme uses_netloc
               && negb (String.eqb (take 2 (path_of scheme url)) "//"));
    destruct (truthy scheme);
    destruct (truthy (path_of scheme url)
              && negb (String.eqb (take 1 (path_of scheme url)) "/"));
    rewrite ?clean_app, ?Hs, ?Hn, ?Hp; done.
Qed.

Lemma after_scheme_clean scheme url parts :
  clean scheme = true ->
  stem_parts <$> after_scheme scheme url = Some parts ->
  clean (identity_from parts) = true.
Proof.
  intros Hs. rewrite after_scheme_parts.
  destruct (String.prefix "//" url).
  - cbv zeta. destruct (netloc_ok _ _); [|done]. intros [= <-].
    apply clean_identity_from; [done | apply host_clean | apply stem_clean].
  - intros [= <-]. apply clean_identity_from; [done | done | apply stem_clean].
Qed.

Lemma identity_of_clean absolute_url identity :
  identity_of absolute_url = Some identity -> clean identity = true.
Proof.
  rewrite identity_of_parts, urlsplit_stages.
  destruct (stem_parts <$> after_scheme _ _) as [parts|] eqn:E; [|done].
  intros [= <-]. eapply after_scheme_clean; [|exact E].
  by apply detect_scheme_clean.
Qed.

Lemma clean_no_qf s :
  clean s = true -> in_char "?" s = false /\ in_char "#" s = false.
Proof.
  unfold clean, in_char. induction s as [|c r IH]; [done|].
  cbn [all_chars find_char]. unfold is_qf at 1.
  intros [Hc Hr]%andb_true_iff. apply negb_true_iff, orb_false_iff in Hc as [-> ->].
  destruct (IH Hr) as [H1 H2].
  by destruct (find_char "?" r), (find_char "#" r).
Qed.

(** X11. Two references whose resolved URLs are the same up to the first [?]
    or [#], that is, differ only in query string and fragment, get the
    same identity from [normalize_url], or [normalize_url] raises on
    both. *)
Theorem identity_ignores_query_and_fragment
    (base_url url1 url2 absolute1 absolute2 : string) :
  urljoin bracketed_host_ok base_url url1 = Some absolute1 ->
  urljoin bracketed_host_ok base_url url2 = Some absolute2 ->
  stem absolute1 = stem absolute2 ->
  fst <$> Scraper.normalize_url bracketed_host_ok url1 base_url
  = fst <$> Scraper.normalize_url bracketed_host_ok url2 base_url.
Proof.
  intros H1 H2 Hstem. rewrite !normalize_url_identity, H1, H2.
  rewrite (identity_of_stem absolute1), (identity_of_stem absolute2), Hstem.
  by destruct (identity_of (stem absolute2)).
Qed.

(** X12. The identity that [normalize_url] returns contains neither [?] nor
    [#], and the link it returns is the URL that [urljoin] resolved. *)
Theorem identity_has_no_query_and_no_fragment
    (url base_url identity link : string) :
  Scraper.normalize_url bracketed_host_ok url base_url = Some (identity, link) ->
  in_char "?" identity = false
  /\ in_char "#" identity = false
  /\ urljoin bracketed_host_ok base_url url = Some link.
Proof.
  rewrite normalize_url_identity.
  destruct (urljoin bracketed_host_ok base_url url) as [a|]; [|done].
  destruct (identity_of a) as [i|] eqn:E; [|done]. intros [= <- <-].
  destruct (clean_no_qf i (identity_of_clean a i E)) as [H1 H2]. done.
Qed.

(** *** The parameters of the last path segment *)

Lemma rfind_char_free c s : free_of c s = true -> rfind_char c s = None.
Proof.
  unfold free_of. induction s as [|d r IH]; [done|]. cbn [all_chars rfind_char].
  intros [Hd Hr]%andb_true_iff. rewrite (IH Hr).
  apply negb_true_iff in Hd. by rewrite Hd.
Qed.

Lemma rfind_char_last c a b :
  free_of c b = true -> rfind_char c (a +:+ String c b) = Some (String.length a).
Proof.
  intros Hb. induction a as [|d r IH].
  - change ("" +:+ String c b) with (String c b). cbn [rfind_char].
    by rewrite (rfind_char_free _ _ Hb), Ascii.eqb_refl.
  - rewrite append_cons. cbn [rfind_char]. by rewrite IH.
Qed.

Lemma find_char_first c a b :
  free_of c a = true -> find_char c (a +:+ String c b) = Some (String.length a).
Proof.
  intros Ha. rewrite find_char_app.
  apply find_char_none_free in Ha. rewrite Ha. cbn [find_char].
  rewrite Ascii.eqb_refl. simpl. f_equal. lia.
Qed.

Lemma path_of_parameters scheme directory segment parameters :
  in_list scheme uses_params = true ->
  directory = "" \/ (exists d, directory = d +:+ "/") ->
  free_of "/" segment = true ->
  free_of ";" segment = true ->
  free_of "/" parameters = true ->
  path_of scheme (directory +:+ segment +:+ String ";" parameters)
  = directory +:+ segment.
Proof.
  intros Hs Hdir Hseg_slash Hseg_semi Hpar. unfold path_of. rewrite Hs.
  assert (Hrest : free_of "/" (segment +:+ String ";" parameters) = true).
  { rewrite free_of_app, Hseg_slash. unfold free_of in *. cbn [all_chars].
    by rewrite Hpar. }
  destruct Hdir as [-> | [d ->]].
  - change ("" +:+ segment +:+ String ";" parameters)
      with (segment +:+ String ";" parameters).
    change ("" +:+ segment) with segment.
    unfold in_char, splitparams, in_char.
    rewrite (find_char_first _ _ _ Hseg_semi). cbn [andb].
    apply find_char_none_free in Hrest. rewrite Hrest.
    cbn [fst]. apply take_append.
  - rewrite !append_assoc.
    change ("/" +:+ segment +:+ String ";" parameters)
      with (String "/" (segment +:+ String ";" parameters)).
    change ("/" +:+ segment) with (String "/" segment).
    assert (Hsemi : in_char ";" (d +:+ String "/" (segment +:+ String ";" parameters))
                    = true).
    { unfold in_char. rewrite find_char_app.
      destruct (find_char ";" d); [done|]. cbn [find_char].
      change (Ascii.eqb "/" ";") with false. cbv iota.
      by rewrite (find_char_first _ _ _ Hseg_semi). }
    assert (Hslash : in_char "/" (d +:+ String "/" (segment +:+ String ";" parameters))
                     = true).
    { unfold in_char. rewrite find_char_app.
      destruct (find_char "/" d); [done|]. cbn [find_char].
      by rewrite Ascii.eqb_refl. }
    rewrite Hsemi. cbn [andb]. unfold splitparams. rewrite Hslash.
    rewrite (rfind_char_last _ _ _ Hrest).
    change (default 0 (Some (String.length d))) with (String.length d).
    unfold find_char_from. rewrite drop_append. cbn [find_char].
    change (Ascii.eqb "/" ";") with false. cbv iota.
    rewrite (find_char_first _ _ _ Hseg_semi).
    cbn [fmap option_fmap option_map fst].
    rewrite take_app_add. f_equal. cbn [take]. f_equal. apply take_append.
Qed.

(** X13. Two references whose resolved URLs have the same scheme (one with
    parameters: http, https, ftp, ...), the same netloc and the same path
    up to the parameters of the last segment, from its first [;] on, get
    the same identity from [normalize_url]: the parameters are left out of
    it, as the query and the fragment are. *)
Theorem identity_ignores_path_parameters
    (base_url url1 url2 absolute1 absolute2 : string) (split1 split2 : SplitResult)
    (directory segment parameters1 parameters2 : string) :
  urljoin bracketed_host_ok base_url url1 = Some absolute1 ->
  urljoin bracketed_host_ok base_url url2 = Some absolute2 ->
  urlsplit bracketed_host_ok absolute1 "" = Some split1 ->
  urlsplit bracketed_host_ok absolute2 "" = Some split2 ->
  s_scheme split2 = s_scheme split1 ->
  s_netloc split2 = s_netloc split1 ->
  in_list (s_scheme split1) uses_params = true ->
  s_path split1 = directory +:+ segment +:+ String ";" parameters1 ->
  s_path split2 = directory +:+ segment +:+ String ";" parameters2 ->
  directory = "" \/ (exists d, directory = d +:+ "/") ->
  free_of "/" segment = true ->
  free_of ";" segment = true ->
  free_of "/" parameters1 = true ->
  free_of "/" parameters2 = true ->
  Scraper.normalize_url bracketed_host_ok url1 base_url
  = Some (urlunparse (s_scheme split1) (s_netloc split1) (directory +:+ segment)
            "" "" "", absolute1)
  /\ Scraper.normalize_url bracketed_host_ok url2 base_url
     = Some (urlunparse (s_scheme split1) (s_netloc split1) (directory +:+ segment)
               "" "" "", absolute2).
Proof.
  intros H1 H2 Hs1 Hs2 Hscheme Hnetloc Hparams Hp1 Hp2 Hdir Hseg1 Hseg2 Hpar1 Hpar2.
  rewrite !normalize_url_identity, H1, H2, !identity_of_parts, Hs1, Hs2.
  cbn [fmap option_fmap option_map]. unfold identity_from, stem_parts.
  rewrite Hscheme, Hnetloc, Hp1, Hp2, !path_of_parameters by done. done.
Qed.


End Stages.

Section Witnesses.
Import Examples.

Lemma identity_ignores_query_and_fragment_witness :
  urljoin any_bracketed_host "https://x.org/courses/" "/reg?sid=123#top"
    = Some "https://x.org/reg?sid=123#top"
  /\ urljoin any_bracketed_host "https://x.org/courses/" "../reg#details"
     = Some "https://x.org/reg#details"
  /\ stem "https://x.org/reg?sid=123#top" = stem "https://x.org/reg#details"
  /\ fst <$> Scraper.normalize_url any_bracketed_host "/reg?sid=123#top"
               "https://x.org/courses/"
     = fst <$> Scraper.normalize_url any_bracketed_host "../reg#details"
                 "https://x.org/courses/".
Proof.
  assert (H1 : urljoin any_bracketed_host "https://x.org/courses/" "/reg?sid=123#top"
               = Some "https://x.org/reg?sid=123#top") by (vm_compute; reflexivity).
  assert (H2 : urljoin any_bracketed_host "https://x.org/courses/" "../reg#details"
               = Some "https://x.org/reg#details") by (vm_compute; reflexivity).
  assert (H3 : stem "https://x.org/reg?sid=123#top" = stem "https://x.org/reg#details")
    by (vm_compute; reflexivity).
  split; [exact H1|]. split; [exact H2|]. split; [exact H3|].
  exact (identity_ignores_query_and_fragment any_bracketed_host _ _ _ _ _ H1 H2 H3).
Defined.

Lemma identity_has_no_query_and_no_fragment_witness :
  Scraper.normalize_url any_bracketed_host "/reg?sid=123#top" "https://x.org/courses/"
    = Some ("https://x.org/reg", "https://x.org/reg?sid=123#top")
  /\ in_char "?" "https://x.org/reg" = false
  /\ in_char "#" "https://x.org/reg" = false.
Proof.
  assert (H : Scraper.normalize_url any_bracketed_host "/reg?sid=123#top"
                "https://x.org/courses/"
              = Some ("https://x.org/reg", "https://x.org/reg?sid=123#top"))
    by (vm_compute; reflexivity).
  destruct (identity_has_no_query_and_no_fragment any_bracketed_host _ _ _ _ H)
    as (Hq & Hf & _).
  split; [exact H|]. split; [exact Hq | exact Hf].
Defined.

Lemma identity_ignores_path_parameters_witness :
  Scraper.normalize_url any_bracketed_host "reg;v=2?sid=1" "https://x.org/courses/"
  = Some ("https://x.org/courses/reg", "https://x.org/courses/reg;v=2?sid=1")
  /\ Scraper.normalize_url any_bracketed_host "/courses/reg;lang=en"
       "https://x.org/courses/"
     = Some ("https://x.org/courses/reg", "https://x.org/courses/reg;lang=en").
Proof.
  assert (H1 : urljoin any_bracketed_host "https://x.org/courses/" "reg;v=2?sid=1"
               = Some "https://x.org/courses/reg;v=2?sid=1")
    by (vm_compute; reflexivity).
  assert (H2 : urljoin any_bracketed_host "https://x.org/courses/"
                 "/courses/reg;lang=en"
               = Some "https://x.org/courses/reg;lang=en")
    by (vm_compute; reflexivity).
  assert (Hs1 : urlsplit any_bracketed_host "https://x.org/courses/reg;v=2?sid=1" ""
                = Some (mkSplitResult "https" "x.org" "/courses/reg;v=2" "sid=1" ""))
    by (vm_compute; reflexivity).
  assert (Hs2 : urlsplit any_bracketed_host "https://x.org/courses/reg;lang=en" ""
                = Some (mkSplitResult "https" "x.org" "/courses/reg;lang=en" "" ""))
    by (vm_compute; reflexivity).
  apply (identity_ignores_path_parameters any_bracketed_host _ _ _ _ _ _ _
           "/courses/" "reg" "v=2" "lang=en" H1 H2 Hs1 Hs2);
    first [reflexivity | right; by exists "/courses"].
Defined.



End Witnesses.

End UrlProps.
